(** * mysql-slow-sql-webhook: the slow-log tailer of [main.go]

    A shallow embedding of [main.go]: the five regular expressions, the
    field scan and threshold test of [processSlowQuery], the webhook
    payload of [sendWebhookNotification], the line loop of [tailSlowLog]
    and the flag handling of [main].

    Strings are byte strings ([string], one [ascii] per byte), as Go's are.
    [float64] values are [spec_float] at precision 53, [int] values are [Z]
    clamped to 64 bits where the code can overflow.  The lines delivered on
    [t.Lines] are a finite list (a prefix of the stream); the effects of the
    program are the list of HTTP requests it posts, in order. *)

From Stdlib Require Import ZArith List String Ascii Bool Lia.
From Stdlib Require Import Floats.SpecFloat.
Import ListNotations.
Local Open Scope string_scope.

(** ** Regular expressions ([regexp], the fragment the patterns use)

    Go's [regexp] gives the match a leftmost-first backtracking search
    finds: alternatives left to right, repetitions greedy.  The matcher below
    is that search, written with a continuation for what follows.  Every
    repetition in the five patterns is over a one-character class, so the
    matcher is structural.

    The patterns are ASCII and each repetition is followed by an ASCII
    character or by the end of the pattern, so matching bytes and matching
    UTF-8 runes select the same substrings. *)
Module Regexp.

Inductive cls : Type :=
| Digit      (* \d : [0-9] *)
| Space      (* \s : [\t\n\f\r ] *)
| NotSpace   (* \S *)
| Dot.       (* .  : anything but \n *)

Definition is_digit (c : ascii) : bool :=
  let n := nat_of_ascii c in (48 <=? n)%nat && (n <=? 57)%nat.

Definition is_space (c : ascii) : bool :=
  let n := nat_of_ascii c in
  (n =? 9)%nat || (n =? 10)%nat || (n =? 12)%nat || (n =? 13)%nat || (n =? 32)%nat.

Definition in_cls (k : cls) (c : ascii) : bool :=
  match k with
  | Digit => is_digit c
  | Space => is_space c
  | NotSpace => negb (is_space c)
  | Dot => negb (nat_of_ascii c =? 10)%nat
  end.

Inductive regex : Type :=
| Lit (s : string)             (* literal text *)
| Star (k : cls)               (* k*  *)
| Plus (k : cls)               (* k+  *)
| Rep (n : nat) (k : cls)      (* k{n} *)
| Cat (r1 r2 : regex)
| Alt (r1 r2 : regex)          (* r1|r2 *)
| Group (i : nat) (r : regex)  (* the i-th capturing group *)
| Bol                          (* ^ *)
| Eol.                         (* $ *)

(** A compiled pattern: the [(?i)] flag, the number of groups, the
    expression. *)
Record Regexp : Type := MustCompile
  { fold_case : bool; num_groups : nat; expr : regex }.

Definition to_lower (c : ascii) : ascii :=
  let n := nat_of_ascii c in
  if (65 <=? n)%nat && (n <=? 90)%nat then ascii_of_nat (n + 32) else c.

(** Under [(?i)] a letter also matches the other members of its simple
    case-folding orbit: for s that is U+017F (bytes C5 BF), for k it is
    U+212A (bytes E2 84 AA). *)
Definition fold_extra (c : ascii) : option string :=
  let n := nat_of_ascii (to_lower c) in
  if (n =? 115)%nat then
    Some (String (ascii_of_nat 197) (String (ascii_of_nat 191) ""))
  else if (n =? 107)%nat then
    Some (String (ascii_of_nat 226) (String (ascii_of_nat 132)
           (String (ascii_of_nat 170) "")))
  else None.

(** [strip_prefix p s]: what is left of [s] after the prefix [p]. *)
Fixpoint strip_prefix (p s : string) : option string :=
  match p with
  | EmptyString => Some s
  | String a p' =>
      match s with
      | String b s' => if Ascii.eqb a b then strip_prefix p' s' else None
      | EmptyString => None
      end
  end.

(** One pattern character against the front of the input. *)
Definition lit_char (ci : bool) (a : ascii) (s : string) : option string :=
  match s with
  | EmptyString => None
  | String b s' =>
      if Ascii.eqb a b then Some s'
      else if ci then
        if Ascii.eqb (to_lower a) (to_lower b) then Some s'
        else match fold_extra a with
             | Some x => strip_prefix x s
             | None => None
             end
      else None
  end.

Fixpoint lit (ci : bool) (p s : string) : option string :=
  match p with
  | EmptyString => Some s
  | String a p' =>
      match lit_char ci a s with
      | Some s' => lit ci p' s'
      | None => None
      end
  end.

Section Matcher.
Context {R : Type}.

Definition or_else (x : option R) (y : option R) : option R :=
  match x with Some _ => x | None => y end.

(** Greedy [k*]: the longest run first, then shorter ones. *)
Fixpoint star (k : cls) (s : string) (cont : string -> option R) : option R :=
  match s with
  | String c s' =>
      if in_cls k c then or_else (star k s' cont) (cont s) else cont s
  | EmptyString => cont s
  end.

Fixpoint rep (n : nat) (k : cls) (s : string) : option string :=
  match n with
  | O => Some s
  | S n' =>
      match s with
      | String c s' => if in_cls k c then rep n' k s' else None
      | EmptyString => None
      end
  end.
End Matcher.

(** The submatches found so far: group number and text, newest first. *)
Definition caps : Type := list (nat * string).

(** The text consumed between input [s] and its suffix [s']. *)
Definition consumed (s s' : string) : string :=
  substring 0 (String.length s - String.length s') s.

(** [rmatch len ci r s c cont]: match [r] at the front of [s], then
    [cont] on the rest; [len] is the length of the whole text, so that
    [^] can tell the start. *)
Fixpoint rmatch (len : nat) (ci : bool) (r : regex) (s : string) (c : caps)
         (cont : string -> caps -> option caps) {struct r} : option caps :=
  match r with
  | Lit p =>
      match lit ci p s with
      | Some s' => cont s' c
      | None => None
      end
  | Star k => star k s (fun s' => cont s' c)
  | Plus k =>
      match s with
      | String x s' =>
          if in_cls k x then star k s' (fun s'' => cont s'' c) else None
      | EmptyString => None
      end
  | Rep n k =>
      match rep n k s with
      | Some s' => cont s' c
      | None => None
      end
  | Cat r1 r2 =>
      rmatch len ci r1 s c (fun s' c' => rmatch len ci r2 s' c' cont)
  | Alt r1 r2 =>
      or_else (rmatch len ci r1 s c cont) (rmatch len ci r2 s c cont)
  | Group i r1 =>
      rmatch len ci r1 s c (fun s' c' => cont s' ((i, consumed s s') :: c'))
  | Bol => if (String.length s =? len)%nat then cont s c else None
  | Eol => match s with EmptyString => cont s c | _ => None end
  end.

(** The leftmost start at which the pattern matches. *)
Fixpoint search (len : nat) (re : Regexp) (s : string) : option caps :=
  match rmatch len (fold_case re) (expr re) s []
               (fun s' c => Some ((0, consumed s s') :: c)) with
  | Some c => Some c
  | None =>
      match s with
      | String _ s' => search len re s'
      | EmptyString => None
      end
  end.

Fixpoint lookup (i : nat) (c : caps) : string :=
  match c with
  | [] => ""
  | (j, t) :: c' => if (i =? j)%nat then t else lookup i c'
  end.

(** [FindStringSubmatch]: [None] is Go's nil; otherwise the whole match
    followed by the text of each group. *)
Definition FindStringSubmatch (re : Regexp) (s : string) : option (list string) :=
  match search (String.length s) re s with
  | Some c => Some (map (fun i => lookup i c) (seq 0 (S (num_groups re))))
  | None => None
  end.

Definition MatchString (re : Regexp) (s : string) : bool :=
  match search (String.length s) re s with
  | Some _ => true
  | None => false
  end.

Declare Scope regex_scope.
Delimit Scope regex_scope with re.
Infix "+++" := Cat (at level 40, left associativity) : regex_scope.
Infix "||" := Alt : regex_scope.

End Regexp.
Import Regexp.

(** ** The patterns of [main.go] *)

Local Open Scope regex_scope.

(** [^# Time: \d{4}-\d{2}-\d{2}.*$] *)
Definition queryStartPattern : Regexp :=
  MustCompile false 0
    (Bol +++ Lit "# Time: " +++ Rep 4 Digit +++ Lit "-" +++ Rep 2 Digit +++
     Lit "-" +++ Rep 2 Digit +++ Star Dot +++ Eol).

(** [(\d+\.\d+|\d+)] *)
Definition decimal : regex := (Plus Digit +++ Lit "." +++ Plus Digit) || Plus Digit.

(** [# Query_time:\s*(\d+\.\d+|\d+)\s*Lock_time:\s*(\d+\.\d+|\d+)\s*Rows_sent:\s*(\d+)\s*Rows_examined:\s*(\d+)] *)
Definition queryTimePattern : Regexp :=
  MustCompile false 4
    (Lit "# Query_time:" +++ Star Space +++ Group 1 decimal +++ Star Space +++
     Lit "Lock_time:" +++ Star Space +++ Group 2 decimal +++ Star Space +++
     Lit "Rows_sent:" +++ Star Space +++ Group 3 (Plus Digit) +++ Star Space +++
     Lit "Rows_examined:" +++ Star Space +++ Group 4 (Plus Digit)).

(** [# User@Host:\s*(\S+)\s*\[\S+\]\s*@\s*(\S+)] *)
Definition userHostPattern : Regexp :=
  MustCompile false 2
    (Lit "# User@Host:" +++ Star Space +++ Group 1 (Plus NotSpace) +++
     Star Space +++ Lit "[" +++ Plus NotSpace +++ Lit "]" +++ Star Space +++
     Lit "@" +++ Star Space +++ Group 2 (Plus NotSpace)).

(** [# Schema:\s*(\S+)] *)
Definition databasePattern : Regexp :=
  MustCompile false 1
    (Lit "# Schema:" +++ Star Space +++ Group 1 (Plus NotSpace)).

(** [(?i)^(SELECT|UPDATE|DELETE|INSERT)\s+.*;$] *)
Definition sqlQueryEndPattern : Regexp :=
  MustCompile true 1
    (Bol +++ Group 1 (Lit "SELECT" || Lit "UPDATE" || Lit "DELETE" || Lit "INSERT") +++
     Plus Space +++ Star Dot +++ Lit ";" +++ Eol).

Local Close Scope regex_scope.

(** ** [strconv] and [fmt]: the conversions the code calls *)

Local Open Scope Z_scope.

Definition float64 : Type := spec_float.

Definition digit_val (c : ascii) : Z := Z.of_nat (nat_of_ascii c) - 48.

(** Reads the leading decimal digits of [s]: their value on top of [acc],
    how many there were, and the rest of [s]. *)
Fixpoint read_digits (acc : Z) (n : nat) (s : string) : Z * nat * string :=
  match s with
  | String c s' =>
      if is_digit c then read_digits (10 * acc + digit_val c) (S n) s'
      else (acc, n, s)
  | EmptyString => (acc, n, s)
  end.

(** The [float64] nearest to [n / d] (ties to even), for [n >= 0] and
    [d > 0]; a quotient too large for a [float64] gives [+Inf], as
    [ParseFloat] returns with its range error. *)
Definition nearest_float64 (n d : Z) : float64 :=
  match n, d with
  | Zpos pn, Zpos pd =>
      SFdiv 53 1024 (S754_finite false pn 0) (S754_finite false pd 0)
  | _, _ => S754_zero false
  end.

(** [strconv.ParseFloat(s, 64)] with its error dropped, on the strings
    [\d+] and [\d+\.\d+] that the groups of [queryTimePattern] capture.
    On other text the model gives 0, the value Go returns with a syntax
    error. *)
Definition ParseFloat (s : string) : float64 :=
  let '(ip, n1, rest) := read_digits 0 0 s in
  match n1, rest with
  | O, _ => S754_zero false
  | _, EmptyString => nearest_float64 ip 1
  | _, String c rest' =>
      if Ascii.eqb c "." then
        let '(v, n2, rest'') := read_digits ip 0 rest' in
        match n2, rest'' with
        | S _, EmptyString => nearest_float64 v (10 ^ Z.of_nat n2)
        | _, _ => S754_zero false
        end
      else S754_zero false
  end.

Definition MaxInt64 : Z := 2 ^ 63 - 1.

(** [strconv.Atoi(s)] with its error dropped, on the digit strings [\d+]
    that the patterns capture: the value, or [MaxInt64] when it does not
    fit an [int] (Go returns the nearest bound with its range error). *)
Definition Atoi (s : string) : Z :=
  let '(v, n, rest) := read_digits 0 0 s in
  match n, rest with
  | S _, EmptyString => Z.min v MaxInt64
  | _, _ => 0
  end.

(** Decimal digits of a non-negative number, most significant first. *)
Fixpoint dec_digits (fuel : nat) (z : Z) (acc : string) : string :=
  let acc' := String (ascii_of_nat (48 + Z.to_nat (z mod 10))%nat) acc in
  match fuel with
  | O => acc'
  | S fuel' => if z <? 10 then acc' else dec_digits fuel' (z / 10) acc'
  end.

Definition dec_string (z : Z) : string :=
  dec_digits (Z.to_nat (Z.log2 z)) z "".

(** The verb [%d]. *)
Definition fmt_d (z : Z) : string :=
  if z <? 0 then "-" ++ dec_string (- z) else dec_string z.

(** The integer nearest to [n / d], ties to even ([d > 0]). *)
Definition round_half_even (n d : Z) : Z :=
  let q := n / d in
  match (2 * (n mod d) ?= d) with
  | Lt => q
  | Gt => q + 1
  | Eq => if Z.even q then q else q + 1
  end.

(** [m * 2^e] in hundredths, rounded. *)
Definition hundredths (m : positive) (e : Z) : Z :=
  if 0 <=? e then Zpos m * 2 ^ e * 100
  else round_half_even (Zpos m * 100) (2 ^ (- e)).

Definition two_digits (z : Z) : string :=
  String (ascii_of_nat (48 + Z.to_nat (z / 10))%nat)
    (String (ascii_of_nat (48 + Z.to_nat (z mod 10))%nat) "").

(** The verb [%.2f]. *)
Definition fmt_f2 (x : float64) : string :=
  match x with
  | S754_nan => "NaN"
  | S754_infinity s => if s then "-Inf" else "+Inf"
  | S754_zero s => (if s then "-" else "") ++ "0.00"
  | S754_finite s m e =>
      let h := hundredths m e in
      (if s then "-" else "") ++ dec_string (h / 100) ++ "." ++ two_digits (h mod 100)
  end.

(** ** Configuration and effects *)

(** The five package-level variables that [main] fills from the flags. *)
Record config : Type := Config
  { webhookURL : string;
    slowLogFile : string;
    slowQueryThreshold : float64;
    isTest : bool;
    readHistory : bool }.

(** One [client.R().SetHeader(..).SetBody(..).Post(..)]. *)
Record request : Type := Post
  { url : string;
    header : string * string;
    body : string }.

(** The characters a Rocq string cannot spell directly. *)
Definition dq : string := String (ascii_of_nat 34) "".   (* the double quote *)
Definition nl : string := String (ascii_of_nat 10) "".   (* line feed *)
Definition tab : string := String (ascii_of_nat 9) "".   (* tab *)

(** ** [sendWebhookNotification] *)

(** The raw-string template around [%s]. *)
Definition payload_prefix : string :=
  "{" ++ nl ++
  tab ++ tab ++ dq ++ "msgtype" ++ dq ++ ": " ++ dq ++ "markdown" ++ dq ++ "," ++ nl ++
  tab ++ tab ++ dq ++ "markdown" ++ dq ++ ": {" ++ nl ++
  tab ++ tab ++ tab ++ dq ++ "content" ++ dq ++ ": " ++ dq.

Definition payload_suffix : string :=
  dq ++ nl ++
  tab ++ tab ++ "}" ++ nl ++
  tab ++ "}".

Definition payload (content : string) : string :=
  payload_prefix ++ content ++ payload_suffix.

(** The request is posted once; its outcome is only printed. *)
Definition sendWebhookNotification (cfg : config) (content : string) : list request :=
  [ Post (webhookURL cfg) ("Content-Type", "application/json") (payload content) ].

(** ** [processSlowQuery] *)

(** The eight locals of [processSlowQuery]. *)
Record ParsedEntry : Type := Entry
  { queryTime : float64;
    lockTime : float64;
    rowsSent : Z;
    rowsExamined : Z;
    database : string;
    user : string;
    host : string;
    sqlQuery : string }.

(** Their zero values. *)
Definition zeroEntry : ParsedEntry :=
  Entry (S754_zero false) (S754_zero false) 0 0 "" "" "" "".

Definition matches_at (matches : list string) (i : nat) : string :=
  nth i matches "".

(** The four [if] statements of the loop body, in order. *)
Definition scanTiming (line : string) (e : ParsedEntry) : ParsedEntry :=
  match FindStringSubmatch queryTimePattern line with
  | Some matches =>
      Entry (ParseFloat (matches_at matches 1)) (ParseFloat (matches_at matches 2))
            (Atoi (matches_at matches 3)) (Atoi (matches_at matches 4))
            (database e) (user e) (host e) (sqlQuery e)
  | None => e
  end.

Definition scanUserHost (line : string) (e : ParsedEntry) : ParsedEntry :=
  match FindStringSubmatch userHostPattern line with
  | Some matches =>
      Entry (queryTime e) (lockTime e) (rowsSent e) (rowsExamined e)
            (database e) (matches_at matches 1) (matches_at matches 2) (sqlQuery e)
  | None => e
  end.

Definition scanDatabase (line : string) (e : ParsedEntry) : ParsedEntry :=
  match FindStringSubmatch databasePattern line with
  | Some matches =>
      Entry (queryTime e) (lockTime e) (rowsSent e) (rowsExamined e)
            (matches_at matches 1) (user e) (host e) (sqlQuery e)
  | None => e
  end.

Definition scanSQL (line : string) (e : ParsedEntry) : ParsedEntry :=
  match FindStringSubmatch sqlQueryEndPattern line with
  | Some _ =>
      Entry (queryTime e) (lockTime e) (rowsSent e) (rowsExamined e)
            (database e) (user e) (host e) line
  | None => e
  end.

Definition scanLine (e : ParsedEntry) (line : string) : ParsedEntry :=
  scanSQL line (scanDatabase line (scanUserHost line (scanTiming line e))).

(** [for _, line := range logLines { ... }] *)
Definition parseEntry (logLines : list string) : ParsedEntry :=
  fold_left scanLine logLines zeroEntry.

(** A [<font color=\"..\">] tag as the raw-string template spells it: the
    backslashes are part of the text. *)
Definition font (color : string) : string :=
  "<font color=\" ++ dq ++ color ++ "\" ++ dq ++ ">".

(** The [fmt.Sprintf] of [processSlowQuery]. *)
Definition notificationContent (e : ParsedEntry) : string :=
  font "warning" ++ "**慢查询警告**</font>\n" ++
  "> **查询时间:** " ++ font "warning" ++ fmt_f2 (queryTime e) ++ " 秒</font>\n" ++
  "> **锁定时间:** " ++ font "comment" ++ fmt_f2 (lockTime e) ++ " 秒</font>\n" ++
  "> **数据库:** " ++ font "comment" ++ database e ++ "</font>\n" ++
  "> **主机:** " ++ font "comment" ++ host e ++ "</font>\n" ++
  "> **用户:** " ++ font "comment" ++ user e ++ "</font>\n" ++
  "> **发送的行数:** " ++ font "comment" ++ fmt_d (rowsSent e) ++ "</font>\n" ++
  "> **扫描的行数:** " ++ font "comment" ++ fmt_d (rowsExamined e) ++ "</font>\n" ++
  "> **SQL 查询:** " ++ font "comment" ++ sqlQuery e ++ "</font>\n".

(** [a >= b] on [float64]: false when either is NaN. *)
Definition float_ge (a b : float64) : bool := SFleb b a.

(** The threshold test and the notification. *)
Definition evaluate (cfg : config) (e : ParsedEntry) : list request :=
  if float_ge (queryTime e) (slowQueryThreshold cfg)
  then sendWebhookNotification cfg (notificationContent e)
  else [].

Definition processSlowQuery (cfg : config) (logLines : list string) : list request :=
  evaluate cfg (parseEntry logLines).

(** ** [tailSlowLog] *)

Definition nonempty {A : Type} (l : list A) : bool :=
  match l with [] => false | _ :: _ => true end.

(** One iteration of [for line := range t.Lines]: the new [logLines] and
    the arguments of the calls to [processSlowQuery] it makes, in order. *)
Definition tailStep (logLines : list string) (text : string)
  : list string * list (list string) :=
  if String.eqb text "" then (logLines, [])
  else
    let '(logLines1, calls1) :=
      if MatchString queryStartPattern text
      then ([text], if nonempty logLines then [logLines] else [])
      else ((logLines ++ [text])%list, []) in
    let '(logLines2, calls2) :=
      if MatchString sqlQueryEndPattern text
      then ([], [logLines1])
      else (logLines1, []) in
    let calls3 := if nonempty logLines2 then [logLines2] else [] in
    (logLines2, (calls1 ++ calls2 ++ calls3)%list).

(** The loop over the lines delivered so far, from a given [logLines]. *)
Fixpoint tailLoop (logLines : list string) (lines : list string)
  : list string * list (list string) :=
  match lines with
  | [] => (logLines, [])
  | text :: rest =>
      let '(logLines', calls) := tailStep logLines text in
      let '(final, calls') := tailLoop logLines' rest in
      (final, (calls ++ calls')%list)
  end.

(** The calls of a fresh [tailSlowLog] ([var logLines []string]). *)
Definition tailCalls (lines : list string) : list (list string) :=
  snd (tailLoop [] lines).

(** The entries those calls parse, in order. *)
Definition tailEntries (lines : list string) : list ParsedEntry :=
  map parseEntry (tailCalls lines).

(** The requests [tailSlowLog] posts while reading [lines]. *)
Definition tailSlowLog (cfg : config) (lines : list string) : list request :=
  flat_map (processSlowQuery cfg) (tailCalls lines).

(** ** [main] *)

(** What [main] has done once [lines] have been delivered: it has
    returned, or it is in its [for] loop around [tailSlowLog]. *)
Inductive outcome : Type :=
| Returned (posts : list request)
| Tailing (posts : list request).

(** [main] of [main.go]: the usage check, then the loop.  [isTest] is set
    from the flag [-t] and not read again. *)
Definition main (cfg : config) (lines : list string) : outcome :=
  if String.eqb (webhookURL cfg) "" then Returned []
  else Tailing (tailSlowLog cfg lines).

(** ** The properties' vocabulary *)

(** The four extractors of the loop body and the fields each one sets. *)
Inductive extractor : Type := Timing | Identity | Schema | Statement.

Definition pattern_of (x : extractor) : Regexp :=
  match x with
  | Timing => queryTimePattern
  | Identity => userHostPattern
  | Schema => databasePattern
  | Statement => sqlQueryEndPattern
  end.

(** [matches re line]: [re.FindStringSubmatch(line) != nil]. *)
Definition matches (re : Regexp) (line : string) : bool :=
  match FindStringSubmatch re line with Some _ => true | None => false end.

(** Two entries carry the same values in the fields of extractor [x]. *)
Definition agree_on (x : extractor) (e1 e2 : ParsedEntry) : Prop :=
  match x with
  | Timing =>
      queryTime e1 = queryTime e2 /\ lockTime e1 = lockTime e2 /\
      rowsSent e1 = rowsSent e2 /\ rowsExamined e1 = rowsExamined e2
  | Identity => user e1 = user e2 /\ host e1 = host e2
  | Schema => database e1 = database e2
  | Statement => sqlQuery e1 = sqlQuery e2
  end.

(** The first line of [lines] that [re] matches. *)
Definition first_match (re : Regexp) (lines : list string) : option string :=
  find (matches re) lines.

(** The concrete scenario: one entry of the slow log. *)
Definition scenario : list string :=
  [ "# Time: 2024-01-01T10:00:00";
    "# User@Host: app[app] @ 10.0.0.5";
    "# Query_time: 1.5  Lock_time: 0.1  Rows_sent: 3  Rows_examined: 500";
    "# Schema: orders";
    "SELECT * FROM orders;" ].

(** 1.5 = 3 * 2^51 * 2^-52, and the [float64] nearest to 0.1 and to 0.5. *)
Definition f64_1_5 : float64 := S754_finite false 6755399441055744 (-52).
Definition f64_0_1 : float64 := S754_finite false 7205759403792794 (-56).
Definition f64_0_5 : float64 := S754_finite false 4503599627370496 (-53).
Definition f64_2_0 : float64 := S754_finite false 4503599627370496 (-51).

(** [x] is a positive [float64] [m * 2^e] within half of [2^e] of the
    fraction [n / d]. *)
Definition within_half_ulp (x : float64) (n d : Z) : Prop :=
  match x with
  | S754_finite false m e =>
      e <= 0 /\ 2 * Z.abs (Zpos m * d - n * 2 ^ (- e)) <= d
  | _ => False
  end.

(** The configuration of [-u https://example.test/hook -s <threshold>]. *)
Definition config_with (threshold : float64) : config :=
  Config "https://example.test/hook" "/var/log/mysql/mysql-slow.log"
         threshold false false.

(** ** JSON, to read a request body back

    The reading of RFC 8259 that the receiver of the webhook applies: a
    lexer, one character at a time, and a parser over its tokens.  A string
    is kept as the characters between its quotes, escapes as written. *)
Module JSON.

Local Set Warnings "-register-all".

Inductive value : Type :=
| Null
| Bool (b : bool)
| Number (lexeme : string)
| Str (s : string)
| Array (elements : list value)
| Object (members : list (string * value)).

Inductive token : Type :=
| LBrace | RBrace | LBracket | RBracket | Colon | Comma
| TStr (s : string)
| TWord (w : string).    (* a literal name or a number *)

(** Where the lexer is: between tokens, inside a string (with the
    characters read so far), after a backslash, inside the four hex
    digits of a [\u] escape, or inside a word. *)
Inductive lstate : Type :=
| Normal
| InStr (acc : string)
| InEsc (acc : string)
| InHex (acc : string) (left : nat)
| InWord (acc : string).

Definition snoc (acc : string) (c : ascii) : string := acc ++ String c "".

Definition code (c : ascii) : nat := nat_of_ascii c.

Definition is_ws (c : ascii) : bool :=
  let n := code c in
  ((n =? 32) || (n =? 9) || (n =? 10) || (n =? 13))%nat.

Definition is_hex (c : ascii) : bool :=
  let n := code c in
  (((48 <=? n) && (n <=? 57)) || ((65 <=? n) && (n <=? 70)) ||
   ((97 <=? n) && (n <=? 102)))%nat.

(** The characters that may follow a backslash, [u] apart:
    quote, backslash, slash, b, f, n, r, t. *)
Definition is_escape (c : ascii) : bool :=
  let n := code c in
  ((n =? 34) || (n =? 92) || (n =? 47) || (n =? 98) || (n =? 102) ||
   (n =? 110) || (n =? 114) || (n =? 116))%nat.

Definition is_word_char (c : ascii) : bool :=
  let n := code c in
  (((48 <=? n) && (n <=? 57)) || ((65 <=? n) && (n <=? 90)) ||
   ((97 <=? n) && (n <=? 122)) || (n =? 43) || (n =? 45) || (n =? 46))%nat.

(** One character between tokens. *)
Definition step_normal (c : ascii) : option (lstate * list token) :=
  let n := code c in
  if is_ws c then Some (Normal, [])
  else if (n =? 123)%nat then Some (Normal, [LBrace])
  else if (n =? 125)%nat then Some (Normal, [RBrace])
  else if (n =? 91)%nat then Some (Normal, [LBracket])
  else if (n =? 93)%nat then Some (Normal, [RBracket])
  else if (n =? 58)%nat then Some (Normal, [Colon])
  else if (n =? 44)%nat then Some (Normal, [Comma])
  else if (n =? 34)%nat then Some (InStr "", [])
  else if is_word_char c then Some (InWord (String c ""), [])
  else None.

(** One character: the next state and the tokens completed. *)
Definition lex_step (st : lstate) (c : ascii) : option (lstate * list token) :=
  match st with
  | Normal => step_normal c
  | InStr acc =>
      if (code c =? 34)%nat then Some (Normal, [TStr acc])
      else if (code c =? 92)%nat then Some (InEsc (snoc acc c), [])
      else if (code c <? 32)%nat then None
      else Some (InStr (snoc acc c), [])
  | InEsc acc =>
      if is_escape c then Some (InStr (snoc acc c), [])
      else if (code c =? 117)%nat then Some (InHex (snoc acc c) 4, [])
      else None
  | InHex acc n =>
      if is_hex c then
        match n with
        | S (S m) => Some (InHex (snoc acc c) (S m), [])
        | _ => Some (InStr (snoc acc c), [])
        end
      else None
  | InWord acc =>
      if is_word_char c then Some (InWord (snoc acc c), [])
      else match step_normal c with
           | Some (st', out) => Some (st', TWord acc :: out)
           | None => None
           end
  end.

(** The lexer run over [s] from state [st]. *)
Fixpoint lex_from (st : lstate) (s : string) : option (lstate * list token) :=
  match s with
  | EmptyString => Some (st, [])
  | String c s' =>
      match lex_step st c with
      | Some (st', out) =>
          match lex_from st' s' with
          | Some (st'', out') => Some (st'', (out ++ out')%list)
          | None => None
          end
      | None => None
      end
  end.

Definition lex (s : string) : option (list token) :=
  match lex_from Normal s with
  | Some (Normal, ts) => Some ts
  | Some (InWord w, ts) => Some (ts ++ [TWord w])%list
  | _ => None
  end.

(** Numbers: an optional minus; 0, or a digit 1-9 and more digits; an
    optional point and digits; an optional exponent e or E, sign, digits. *)
Fixpoint skip_digits (s : string) : string :=
  match s with
  | String c s' => if is_digit c then skip_digits s' else s
  | EmptyString => s
  end.

Definition starts_with_digit (s : string) : bool :=
  match s with String c _ => is_digit c | EmptyString => false end.

Definition exponent_ok (s : string) : bool :=
  match s with
  | EmptyString => true
  | String c s' =>
      if ((code c =? 101) || (code c =? 69))%nat then
        let s'' := match s' with
                   | String d r => if ((code d =? 43) || (code d =? 45))%nat then r else s'
                   | EmptyString => s'
                   end in
        starts_with_digit s'' && String.eqb (skip_digits s'') ""
      else false
  end.

Definition fraction_ok (s : string) : bool :=
  match s with
  | String c s' =>
      if (code c =? 46)%nat
      then starts_with_digit s' && exponent_ok (skip_digits s')
      else exponent_ok s
  | EmptyString => true
  end.

Definition number_ok (w : string) : bool :=
  let body := match w with
              | String c r => if (code c =? 45)%nat then r else w
              | EmptyString => w
              end in
  match body with
  | String c r =>
      if (code c =? 48)%nat then fraction_ok r
      else is_digit c && fraction_ok (skip_digits r)
  | EmptyString => false
  end.

Definition word_value (w : string) : option value :=
  if String.eqb w "null" then Some Null
  else if String.eqb w "true" then Some (Bool true)
  else if String.eqb w "false" then Some (Bool false)
  else if number_ok w then Some (Number w)
  else None.

(** Recursive descent over the tokens; [fuel] bounds the nesting of
    calls. *)
Fixpoint parse_value (fuel : nat) (ts : list token) {struct fuel}
  : option (value * list token) :=
  match fuel with
  | O => None
  | S f =>
      match ts with
      | TStr s :: r => Some (Str s, r)
      | TWord w :: r =>
          match word_value w with Some v => Some (v, r) | None => None end
      | LBracket :: RBracket :: r => Some (Array [], r)
      | LBracket :: r =>
          match parse_elements f r with
          | Some (l, r') => Some (Array l, r')
          | None => None
          end
      | LBrace :: RBrace :: r => Some (Object [], r)
      | LBrace :: r =>
          match parse_members f r with
          | Some (l, r') => Some (Object l, r')
          | None => None
          end
      | _ => None
      end
  end
with parse_elements (fuel : nat) (ts : list token) {struct fuel}
  : option (list value * list token) :=
  match fuel with
  | O => None
  | S f =>
      match parse_value f ts with
      | Some (v, Comma :: r) =>
          match parse_elements f r with
          | Some (l, r') => Some (v :: l, r')
          | None => None
          end
      | Some (v, RBracket :: r) => Some ([v], r)
      | _ => None
      end
  end
with parse_members (fuel : nat) (ts : list token) {struct fuel}
  : option (list (string * value) * list token) :=
  match fuel with
  | O => None
  | S f =>
      match ts with
      | TStr k :: Colon :: r =>
          match parse_value f r with
          | Some (v, Comma :: r') =>
              match parse_members f r' with
              | Some (l, r'') => Some ((k, v) :: l, r'')
              | None => None
              end
          | Some (v, RBrace :: r') => Some ([(k, v)], r')
          | _ => None
          end
      | _ => None
      end
  end.

(** A whole text is one value. *)
Definition parse (s : string) : option value :=
  match lex s with
  | Some ts =>
      match parse_value (2 * List.length ts + 2) ts with
      | Some (v, []) => Some v
      | _ => None
      end
  | None => None
  end.

(** [content] is the inside of one JSON string: read from just after an
    opening quote, the lexer takes all of it and is still in that string
    (no bare quote, no control character, no broken escape). *)
Definition string_body (content : string) : Prop :=
  lex_from (InStr "") content = Some (InStr content, []).

End JSON.

(** The object the webhook expects around a content. *)
Definition webhook_json (content : string) : JSON.value :=
  JSON.Object
    [ ("msgtype", JSON.Str "markdown");
      ("markdown", JSON.Object [ ("content", JSON.Str content) ]) ].

(** ** The loop of [tailSlowLog] as a transition system

    The same loop body, one rule per branch: the start-marker [if], the
    end-marker [if], the flush at the end of the iteration. *)

Inductive on_start (logLines : list string) (text : string)
  : list string -> list (list string) -> Prop :=
| start_close :
    MatchString queryStartPattern text = true -> logLines <> [] ->
    on_start logLines text [text] [logLines]
| start_first :
    MatchString queryStartPattern text = true -> logLines = [] ->
    on_start logLines text [text] []
| start_append :
    MatchString queryStartPattern text = false ->
    on_start logLines text (logLines ++ [text])%list [].

Inductive on_end (logLines : list string) (text : string)
  : list string -> list (list string) -> Prop :=
| end_emit :
    MatchString sqlQueryEndPattern text = true ->
    on_end logLines text [] [logLines]
| end_keep :
    MatchString sqlQueryEndPattern text = false ->
    on_end logLines text logLines [].

Inductive on_flush (logLines : list string) : list (list string) -> Prop :=
| flush_rest : logLines <> [] -> on_flush logLines [logLines]
| flush_none : logLines = [] -> on_flush logLines [].

Inductive iteration (logLines : list string)
  : string -> list string -> list (list string) -> Prop :=
| iter_blank : iteration logLines "" logLines []
| iter_line text l1 c1 l2 c2 c3 :
    text <> "" ->
    on_start logLines text l1 c1 -> on_end l1 text l2 c2 -> on_flush l2 c3 ->
    iteration logLines text l2 (c1 ++ c2 ++ c3)%list.

(** [run s lines s' calls]: from [logLines = s] the loop reads [lines],
    calls [processSlowQuery] on [calls] in order and is left with [s']. *)
Inductive run : list string -> list string -> list string -> list (list string) -> Prop :=
| run_done s : run s [] s []
| run_line s text rest s1 c1 s2 c2 :
    iteration s text s1 c1 -> run s1 rest s2 c2 ->
    run s (text :: rest) s2 (c1 ++ c2)%list.

(** ** The variant of the program with a test branch

    A second copy of the program in the repository has the same flags and
    the same [sendWebhookNotification]; its [main] reads [isTest].  Its own
    tailing loop is a parameter here. *)
Module Part002.

(** The [fmt.Sprintf] of [sendTestWebhook], on its constants
    0.5, 0.5, database, user, select * from table, 1, 10000. *)
Definition testMessage : string :=
  font "warning" ++ "**慢查询警告测试示例**</font>\n" ++
  "> **查询时间:** " ++ font "warning" ++ fmt_f2 f64_0_5 ++ " 秒</font>\n" ++
  "> **锁定时间:** " ++ font "comment" ++ fmt_f2 f64_0_5 ++ " 秒</font>\n" ++
  "> **数据库:** " ++ font "comment" ++ "database" ++ "</font>\n" ++
  "> **用户:** " ++ font "comment" ++ "user" ++ "</font>\n" ++
  "> **SQL查询:** " ++ font "comment" ++ "select * from table" ++ "</font>\n" ++
  "> **发送的行数:** " ++ font "comment" ++ fmt_d 1 ++ "</font>\n" ++
  "> **扫描的行数:** " ++ font "comment" ++ fmt_d 10000 ++ "</font>\n".

Definition sendTestWebhook (cfg : config) : list request :=
  sendWebhookNotification cfg testMessage.

Section Main.
Variable tailSlowLog : config -> list string -> list request.

Definition main (cfg : config) (lines : list string) : outcome :=
  if String.eqb (webhookURL cfg) "" then Returned []
  else if isTest cfg then Returned (sendTestWebhook cfg)
  else Tailing (tailSlowLog cfg lines).
End Main.

End Part002.

(** ** Entries and configurations used below *)

(** Two schema lines and two timing lines in one entry. *)
Definition two_schemas : list string :=
  [ "# Schema: first";
    "# Query_time: 1  Lock_time: 0  Rows_sent: 1  Rows_examined: 1";
    "# Schema: second";
    "# Query_time: 2  Lock_time: 0  Rows_sent: 2  Rows_examined: 2" ].

(** The scenario without its schema line. *)
Definition no_schema : list string :=
  [ "# Time: 2024-01-01T10:00:00";
    "# User@Host: app[app] @ 10.0.0.5";
    "# Query_time: 1.5  Lock_time: 0.1  Rows_sent: 3  Rows_examined: 500";
    "SELECT * FROM orders;" ].

(** The scenario with a timing line whose duration is not a number. *)
Definition bad_timing : list string :=
  [ "# Time: 2024-01-01T10:00:00";
    "# User@Host: app[app] @ 10.0.0.5";
    "# Query_time: slow  Lock_time: 0.1  Rows_sent: 3  Rows_examined: 500";
    "# Schema: orders";
    "SELECT * FROM orders;" ].

(** An entry still waiting for its timing line. *)
Definition untimed : list string :=
  [ "# Time: 2024-01-01T10:00:00"; "# User@Host: app[app] @ 10.0.0.5" ].

(** The scenario with a quoted literal in its statement. *)
Definition quoted_statement : list string :=
  [ "# Time: 2024-01-01T10:00:00";
    "# User@Host: app[app] @ 10.0.0.5";
    "# Query_time: 1.5  Lock_time: 0.1  Rows_sent: 3  Rows_examined: 500";
    "# Schema: orders";
    "SELECT * FROM orders WHERE note = " ++ dq ++ "late" ++ dq ++ ";" ].

(** A content that closes the string and opens another member. *)
Definition spliced : string :=
  "x" ++ dq ++ ", " ++ dq ++ "y" ++ dq ++ ": " ++ dq ++ "z".

(** The configuration of [-u https://example.test/hook -t]. *)
Definition test_config : config :=
  Config "https://example.test/hook" "/var/log/mysql/mysql-slow.log"
         f64_0_5 true false.

(** ** Vocabulary for the loop and the scan *)

(** [line.Text != ""]. *)
Definition nonblank (text : string) : bool := negb (String.eqb text "").

(** The lists [s ++ l[:1]], [s ++ l[:2]], ..., [s ++ l], in that order. *)
Fixpoint prefixes_from {A : Type} (s l : list A) : list (list A) :=
  match l with
  | [] => []
  | x :: r => (s ++ [x])%list :: prefixes_from (s ++ [x])%list r
  end.

(** A line that at least one of the four patterns of the scan matches. *)
Definition relevant (line : string) : bool :=
  matches queryTimePattern line || matches userHostPattern line ||
  matches databasePattern line || matches sqlQueryEndPattern line.

(** The SQL text of the entry parsed from one call: empty while no
    statement line is in it, else the statement line that ends it. *)
Definition sql_of_call (c : list string) : Prop :=
  (Forall (fun l => MatchString sqlQueryEndPattern l = false) c /\
   sqlQuery (parseEntry c) = "") \/
  (MatchString sqlQueryEndPattern (last c "") = true /\
   sqlQuery (parseEntry c) = last c "").

(** ** Vocabulary for the patterns *)

(** [s'] is what is left of [s] after some prefix. *)
Definition is_suffix (s' s : string) : Prop := exists p, s = p ++ s'.

(** A pattern that can only match from the start of the text. *)
Definition anchored (re : Regexp) : Prop :=
  forall len s c k,
    String.length s <> len -> rmatch len (fold_case re) (expr re) s c k = None.

(** ** The variant's own scan and loop

    The second copy of the program scans each entry with the same timing
    and identity patterns, its own schema and statement patterns, and
    cuts the stream into entries by counting lines. *)
Module Part002Loop.

Local Open Scope regex_scope.

(** [# Database:\s*(\S+)] *)
Definition databasePattern : Regexp :=
  MustCompile false 1
    (Lit "# Database:" +++ Star Space +++ Group 1 (Plus NotSpace)).

(** [(SELECT|INSERT|UPDATE|DELETE|REPLACE|CREATE|DROP|ALTER|TRUNCATE)\s+.+;] *)
Definition sqlQueryPattern : Regexp :=
  MustCompile false 1
    (Group 1 (Lit "SELECT" || Lit "INSERT" || Lit "UPDATE" || Lit "DELETE" ||
              Lit "REPLACE" || Lit "CREATE" || Lit "DROP" || Lit "ALTER" ||
              Lit "TRUNCATE") +++
     Plus Space +++ Plus Dot +++ Lit ";").

Local Close Scope regex_scope.

Definition scanDatabase (line : string) (e : ParsedEntry) : ParsedEntry :=
  match FindStringSubmatch databasePattern line with
  | Some matches =>
      Entry (queryTime e) (lockTime e) (rowsSent e) (rowsExamined e)
            (matches_at matches 1) (user e) (host e) (sqlQuery e)
  | None => e
  end.

Definition scanSQL (line : string) (e : ParsedEntry) : ParsedEntry :=
  match FindStringSubmatch sqlQueryPattern line with
  | Some _ =>
      Entry (queryTime e) (lockTime e) (rowsSent e) (rowsExamined e)
            (database e) (user e) (host e) line
  | None => e
  end.

Definition scanLine (e : ParsedEntry) (line : string) : ParsedEntry :=
  scanSQL line (scanDatabase line (scanUserHost line (scanTiming line e))).

Definition parseEntry (logLines : list string) : ParsedEntry :=
  fold_left scanLine logLines zeroEntry.

(** The [fmt.Sprintf] of this [processSlowQuery]. *)
Definition notificationContent (e : ParsedEntry) : string :=
  font "warning" ++ "**慢查询警告**</font>\n" ++
  "> **查询时间:** " ++ font "warning" ++ fmt_f2 (queryTime e) ++ " 秒</font>\n" ++
  "> **锁定时间:** " ++ font "comment" ++ fmt_f2 (lockTime e) ++ " 秒</font>\n" ++
  "> **数据库:** " ++ font "comment" ++ database e ++ "</font>\n" ++
  "> **host:** " ++ font "comment" ++ host e ++ "</font>\n" ++
  "> **用户:** " ++ font "comment" ++ user e ++ "</font>\n" ++
  "> **发送的行数:** " ++ font "comment" ++ fmt_d (rowsSent e) ++ "</font>\n" ++
  "> **扫描的行数:** " ++ font "comment" ++ fmt_d (rowsExamined e) ++ "</font>\n" ++
  "> **SQL 查询:** " ++ font "comment" ++ sqlQuery e ++ "</font>\n".

Definition processSlowQuery (cfg : config) (logLines : list string) : list request :=
  let e := parseEntry logLines in
  if float_ge (queryTime e) (slowQueryThreshold cfg)
  then sendWebhookNotification cfg (notificationContent e)
  else [].

(** One [scanner.Scan()] that returns a line: with six lines or more
    pending they are processed and the line starts the next entry;
    otherwise the line is appended. *)
Definition tailStep (logLines : list string) (line : string)
  : list string * list (list string) :=
  if (6 <=? List.length logLines)%nat
  then ([line], [logLines])
  else ((logLines ++ [line])%list, []).

(** The inner loop over the lines scanned so far. *)
Fixpoint tailLoop (logLines : list string) (lines : list string)
  : list string * list (list string) :=
  match lines with
  | [] => (logLines, [])
  | line :: rest =>
      let '(logLines', calls) := tailStep logLines line in
      let '(final, calls') := tailLoop logLines' rest in
      (final, (calls ++ calls')%list)
  end.

Definition tailCalls (lines : list string) : list (list string) :=
  snd (tailLoop [] lines).

Definition tailSlowLog (cfg : config) (lines : list string) : list request :=
  flat_map (processSlowQuery cfg) (tailCalls lines).

(** The whole program: [main] over this loop. *)
Definition program (cfg : config) (lines : list string) : outcome :=
  Part002.main tailSlowLog cfg lines.

End Part002Loop.

(** ** Vocabulary for the rendered content *)

(** A character that stands for itself inside a JSON string: no control
    character, no double quote, no backslash. *)
Definition plain_char (c : ascii) : bool :=
  let n := nat_of_ascii c in
  ((32 <=? n) && negb (n =? 34) && negb (n =? 92))%nat.

Fixpoint all_plain (s : string) : bool :=
  match s with
  | EmptyString => true
  | String c s' => plain_char c && all_plain s'
  end.

(** The lexer inside a string. *)
Definition in_string (st : JSON.lstate) : bool :=
  match st with
  | JSON.InStr _ | JSON.InEsc _ | JSON.InHex _ _ => true
  | _ => false
  end.

(** The same lexer state with [p] in front of the characters read. *)
Definition shift (p : string) (st : JSON.lstate) : JSON.lstate :=
  match st with
  | JSON.InStr a => JSON.InStr (p ++ a)
  | JSON.InEsc a => JSON.InEsc (p ++ a)
  | JSON.InHex a n => JSON.InHex (p ++ a) n
  | _ => st
  end.

(** ** Vocabulary for the parsed times *)

(** A [float64] that is +0, a positive number or +Inf. *)
Definition nonneg_float (x : float64) : Prop :=
  match x with
  | S754_zero false | S754_finite false _ _ | S754_infinity false => True
  | _ => False
  end.

(** A threshold that is 0, -0, a negative number or -Inf. *)
Definition nonpositive_float (x : float64) : Prop :=
  match x with
  | S754_zero _ | S754_finite true _ _ | S754_infinity true => True
  | _ => False
  end.

(** ** Vocabulary for the submatches *)

(** Every character of [s] is in the class [k]. *)
Fixpoint all_in (k : cls) (s : string) : bool :=
  match s with
  | EmptyString => true
  | String c s' => in_cls k c && all_in k s'
  end.

(** [spans len ci r s s']: the expression [r] can match the prefix of [s]
    that ends where [s'] begins. *)
Fixpoint spans (len : nat) (ci : bool) (r : regex) (s s' : string) : Prop :=
  match r with
  | Lit p => lit ci p s = Some s'
  | Star k => exists p, s = p ++ s' /\ all_in k p = true
  | Plus k =>
      exists x p, s = String x p ++ s' /\ in_cls k x = true /\ all_in k p = true
  | Rep n k => rep n k s = Some s'
  | Cat r1 r2 => exists m, spans len ci r1 s m /\ spans len ci r2 m s'
  | Alt r1 r2 => spans len ci r1 s s' \/ spans len ci r2 s s'
  | Group _ r1 => spans len ci r1 s s'
  | Bol => s' = s /\ String.length s = len
  | Eol => s' = s /\ s = ""
  end.

(** [t] is a text that group [i] of [r] can capture. *)
Fixpoint group_text (len : nat) (ci : bool) (r : regex) (i : nat) (t : string)
  : Prop :=
  match r with
  | Cat r1 r2 | Alt r1 r2 =>
      group_text len ci r1 i t \/ group_text len ci r2 i t
  | Group j r1 =>
      (i = j /\ exists s s', spans len ci r1 s s' /\ t = consumed s s') \/
      group_text len ci r1 i t
  | _ => False
  end.

(** The groups that take part in every match of [r]. *)
Fixpoint always_set (r : regex) : list nat :=
  match r with
  | Cat r1 r2 => (always_set r1 ++ always_set r2)%list
  | Group j r1 => j :: always_set r1
  | _ => []
  end.

(** One digit or more. *)
Definition is_digits (t : string) : Prop :=
  t <> "" /\ all_in Digit t = true.

(** Digits, or digits, a point and digits. *)
Definition is_decimal (t : string) : Prop :=
  is_digits t \/ exists a b, t = a ++ "." ++ b /\ is_digits a /\ is_digits b.

(** One non-blank character or more. *)
Definition is_word (t : string) : Prop :=
  t <> "" /\ all_in NotSpace t = true.

(** ** Vocabulary for the order of the lines *)

(** [c] is a run of consecutive elements of [l]. *)
Definition infix {A : Type} (c l : list A) : Prop :=
  exists a b, l = (a ++ c ++ b)%list.

(** [c] is the end of [l]. *)
Definition suffix {A : Type} (c l : list A) : Prop :=
  exists a, l = (a ++ c)%list.

(** The configuration [cfg] with another threshold. *)
Definition with_threshold (cfg : config) (t : float64) : config :=
  Config (webhookURL cfg) (slowLogFile cfg) t (isTest cfg) (readHistory cfg).

(** ** The scan, one extractor at a time

    The reading of the scan in which every extractor works alone: it
    looks through all the lines for its own pattern and keeps what the
    last matching line gives. *)




(** A schema line whose name holds a vertical tab (byte 11). *)
Definition vt_schema : string :=
  "# Schema: a" ++ String (ascii_of_nat 11) "b".

(** * Properties *)

Local Arguments FindStringSubmatch : simpl never.
Local Arguments MatchString : simpl never.

(** ** The field scan *)

Section Scan.

Lemma agree_on_refl x e : agree_on x e e.
Proof. destruct x; cbn; auto. Qed.

Lemma agree_on_sym x e1 e2 : agree_on x e1 e2 -> agree_on x e2 e1.
Proof. destruct x; cbn; intuition congruence. Qed.

Lemma agree_on_trans x e1 e2 e3 :
  agree_on x e1 e2 -> agree_on x e2 e3 -> agree_on x e1 e3.
Proof. destruct x; cbn; intuition congruence. Qed.

Ltac scan_cases line :=
  unfold scanLine, scanSQL, scanDatabase, scanUserHost, scanTiming, matches,
    pattern_of;
  destruct (FindStringSubmatch queryTimePattern line);
  destruct (FindStringSubmatch userHostPattern line);
  destruct (FindStringSubmatch databasePattern line);
  destruct (FindStringSubmatch sqlQueryEndPattern line);
  cbn; intros; try discriminate; intuition congruence.

(** A line the extractor's pattern does not match leaves its fields. *)
Lemma scanLine_no_match x e line :
  matches (pattern_of x) line = false -> agree_on x (scanLine e line) e.
Proof. destruct x; scan_cases line. Qed.

(** A line it matches sets them, whatever they were. *)
Lemma scanLine_match x e e' line :
  matches (pattern_of x) line = true ->
  agree_on x (scanLine e line) (scanLine e' line).
Proof. destruct x; scan_cases line. Qed.

Lemma scanLine_agree x e e' line :
  agree_on x e e' -> agree_on x (scanLine e line) (scanLine e' line).
Proof. destruct x; scan_cases line. Qed.

Lemma scan_no_match x lines : forall e,
  Forall (fun l => matches (pattern_of x) l = false) lines ->
  agree_on x (fold_left scanLine lines e) e.
Proof.
  induction lines as [|l lines IH]; intros e H; cbn [fold_left].
  - apply agree_on_refl.
  - inversion H as [|? ? Hl Hrest]; subst.
    eapply agree_on_trans; [apply IH, Hrest | apply scanLine_no_match, Hl].
Qed.

(** The fields of an extractor depend on the lines its pattern matches
    and on nothing else. *)
Lemma scan_filter x lines : forall e e',
  agree_on x e e' ->
  agree_on x (fold_left scanLine lines e)
             (fold_left scanLine (filter (matches (pattern_of x)) lines) e').
Proof.
  induction lines as [|l lines IH]; intros e e' H; cbn [fold_left filter].
  - exact H.
  - destruct (matches (pattern_of x) l) eqn:Hl; cbn [fold_left].
    + apply IH, scanLine_agree, H.
    + apply IH. eapply agree_on_trans; [apply scanLine_no_match, Hl | exact H].
Qed.

Lemma parseEntry_app pre line post :
  parseEntry (pre ++ line :: post) =
  fold_left scanLine post (scanLine (parseEntry pre) line).
Proof. unfold parseEntry. now rewrite fold_left_app. Qed.

End Scan.

(** C2: parsing the five lines of the concrete scenario gives
    queryTime 1.5, lockTime 0.1, rowsSent 3, rowsExamined 500, database
    orders, user app, host 10.0.0.5 and the statement line as the SQL
    text. *)
Theorem scenario_parsed :
  parseEntry scenario =
  {| queryTime := f64_1_5; lockTime := f64_0_1;
     rowsSent := 3; rowsExamined := 500;
     database := "orders"; user := "app"; host := "10.0.0.5";
     sqlQuery := "SELECT * FROM orders;" |}.
Proof. vm_compute. reflexivity. Qed.

(** The constants are what they are called: each is what [ParseFloat]
    returns on its numeral, and lies within half a unit in the last place
    of the fraction (exactly on it for 1.5, 0.5 and 2). *)
Lemma f64_constants :
  (f64_1_5 = ParseFloat "1.5" /\ within_half_ulp f64_1_5 3 2) /\
  (f64_0_1 = ParseFloat "0.1" /\ within_half_ulp f64_0_1 1 10) /\
  (f64_0_5 = ParseFloat "0.5" /\ within_half_ulp f64_0_5 1 2) /\
  (f64_2_0 = ParseFloat "2.0" /\ within_half_ulp f64_2_0 2 1).
Proof.
  repeat split; try (vm_compute; reflexivity); vm_compute; discriminate.
Qed.

(** C3, as the code has it: when several lines of an entry match the same
    extractor's pattern, the fields hold the values of the last such line;
    earlier matches are overwritten.  The fields come out as if that last
    line were the only line. *)
Theorem last_match_wins (x : extractor) (pre post : list string) (line : string) :
  matches (pattern_of x) line = true ->
  Forall (fun l => matches (pattern_of x) l = false) post ->
  agree_on x (parseEntry (pre ++ line :: post)) (parseEntry [line]).
Proof.
  intros Hm Hpost. rewrite parseEntry_app.
  eapply agree_on_trans; [apply scan_no_match, Hpost|].
  apply scanLine_match, Hm.
Qed.

Lemma last_match_wins_witness :
  agree_on Schema (parseEntry two_schemas) (parseEntry ["# Schema: second"]) /\
  database (parseEntry two_schemas) = "second".
Proof.
  split.
  - apply (last_match_wins Schema
             [ "# Schema: first";
               "# Query_time: 1  Lock_time: 0  Rows_sent: 1  Rows_examined: 1" ]
             [ "# Query_time: 2  Lock_time: 0  Rows_sent: 2  Rows_examined: 2" ]
             "# Schema: second").
    + vm_compute. reflexivity.
    + repeat constructor.
  - vm_compute. reflexivity.
Defined.

(** C3 as stated fails: with two schema lines and two timing lines, the
    first matching lines are the ones with first and 1, and the entry holds
    second and 2. *)
Lemma first_match_loses :
  first_match databasePattern two_schemas = Some "# Schema: first" /\
  database (parseEntry ["# Schema: first"]) = "first" /\
  database (parseEntry two_schemas) = "second" /\
  rowsSent (parseEntry two_schemas) = 2 /\
  ~ agree_on Schema (parseEntry two_schemas) (parseEntry ["# Schema: first"]).
Proof.
  repeat split; try (vm_compute; reflexivity).
  vm_compute. discriminate.
Qed.






(** On those two entries: the schema is empty and the rest is as in the
    scenario; the timing fields are 0 and the rest is as in the scenario. *)
Lemma partial_entries :
  parseEntry no_schema =
    Entry f64_1_5 f64_0_1 3 500 "" "app" "10.0.0.5" "SELECT * FROM orders;" /\
  parseEntry bad_timing =
    Entry (S754_zero false) (S754_zero false) 0 0
          "orders" "app" "10.0.0.5" "SELECT * FROM orders;".
Proof. split; vm_compute; reflexivity. Qed.

(** ** The threshold test *)

Lemma SFcompare_antisym (a b : float64) :
  SFcompare b a = option_map CompOpp (SFcompare a b).
Proof.
  destruct a as [sa|sa| |sa ma ea], b as [sb|sb| |sb mb eb]; cbn;
    try reflexivity;
    try (destruct sa; reflexivity); try (destruct sb; reflexivity);
    try (destruct sa, sb; reflexivity).
  pose proof (Pos.compare_cont_antisym ma mb Eq) as Hm. cbn in Hm.
  destruct sa, sb; try reflexivity; f_equal;
    rewrite (Z.compare_antisym ea eb), <- Hm;
    destruct (ea ?= eb); cbn; try reflexivity;
    destruct (Pos.compare_cont Eq ma mb); reflexivity.
Qed.

Lemma float_ge_of_eq (a b : float64) : SFeqb a b = true -> float_ge a b = true.
Proof.
  unfold SFeqb, float_ge, SFleb. rewrite (SFcompare_antisym a b).
  destruct (SFcompare a b) as [[| |]|]; cbn; congruence.
Qed.

Lemma float_ge_of_lt (a b : float64) : SFltb a b = true -> float_ge a b = false.
Proof.
  unfold SFltb, float_ge, SFleb. rewrite (SFcompare_antisym a b).
  destruct (SFcompare a b) as [[| |]|]; cbn; congruence.
Qed.

(** C6: an entry whose query time equals the threshold is notified, once,
    with the content rendered from it; an entry whose query time is below
    the threshold is not. *)
Theorem threshold_boundary (cfg : config) (logLines : list string) :
  (SFeqb (queryTime (parseEntry logLines)) (slowQueryThreshold cfg) = true ->
   processSlowQuery cfg logLines =
     sendWebhookNotification cfg (notificationContent (parseEntry logLines)) /\
   List.length (processSlowQuery cfg logLines) = 1%nat) /\
  (SFltb (queryTime (parseEntry logLines)) (slowQueryThreshold cfg) = true ->
   processSlowQuery cfg logLines = []).
Proof.
  unfold processSlowQuery, evaluate. split; intros H.
  - rewrite (float_ge_of_eq _ _ H). split; reflexivity.
  - now rewrite (float_ge_of_lt _ _ H).
Qed.

Lemma threshold_boundary_witness :
  List.length (processSlowQuery (config_with f64_1_5) scenario) = 1%nat /\
  processSlowQuery (config_with f64_2_0) scenario = [].
Proof.
  split.
  - apply (threshold_boundary (config_with f64_1_5) scenario). vm_compute. reflexivity.
  - apply (threshold_boundary (config_with f64_2_0) scenario). vm_compute. reflexivity.
Defined.

(** C4, as the code has it: [processSlowQuery] builds the entry and tests
    the threshold for every list of lines.  With no timing line the four
    timing fields are 0, and the notification is posted exactly when the
    threshold is at most 0. *)
Theorem no_timing_line_is_evaluated (cfg : config) (logLines : list string) :
  Forall (fun l => matches queryTimePattern l = false) logLines ->
  agree_on Timing (parseEntry logLines) zeroEntry /\
  processSlowQuery cfg logLines =
    if float_ge (S754_zero false) (slowQueryThreshold cfg)
    then sendWebhookNotification cfg (notificationContent (parseEntry logLines))
    else [].
Proof.
  intros H.
  assert (Hz : agree_on Timing (parseEntry logLines) zeroEntry)
    by exact (scan_no_match Timing logLines zeroEntry H).
  split; [exact Hz|].
  unfold processSlowQuery, evaluate. destruct Hz as [Hq _]. now rewrite Hq.
Qed.

Lemma no_timing_line_is_evaluated_witness :
  agree_on Timing (parseEntry untimed) zeroEntry /\
  processSlowQuery (config_with f64_0_5) untimed = [].
Proof.
  apply (no_timing_line_is_evaluated (config_with f64_0_5) untimed).
  repeat constructor.
Defined.

(** C4 as stated fails: with the threshold 0 ([-s 0]) an entry with no
    timing line is compared and notified. *)
Lemma untimed_entry_notified :
  Forall (fun l => matches queryTimePattern l = false) untimed /\
  List.length (processSlowQuery (config_with (S754_zero false)) untimed) = 1%nat.
Proof. split; [repeat constructor | vm_compute; reflexivity]. Qed.

(** ** The loop *)

Lemma tailStep_calls_nonempty (logLines : list string) (text : string) :
  Forall (fun c => c <> []) (snd (tailStep logLines text)).
Proof.
  unfold tailStep.
  destruct (String.eqb text ""); [constructor|].
  destruct (MatchString queryStartPattern text),
           (MatchString sqlQueryEndPattern text),
           logLines; cbn; repeat constructor; discriminate.
Qed.

(** C10: every list of lines the loop passes to [processSlowQuery] is
    non-empty, from any [logLines] and over any lines. *)
Theorem tail_calls_nonempty (logLines lines : list string) :
  Forall (fun c => c <> []) (snd (tailLoop logLines lines)).
Proof.
  revert logLines. induction lines as [|text rest IH]; intros logLines; cbn.
  - constructor.
  - pose proof (tailStep_calls_nonempty logLines text) as Hs.
    destruct (tailStep logLines text) as [s1 c1]. specialize (IH s1).
    destruct (tailLoop s1 rest) as [s2 c2]. cbn in *.
    apply Forall_app. split; assumption.
Qed.

(** A line that is neither blank nor a marker is appended, and the entry
    accumulated so far is processed at once: the flush stands inside the
    loop, so it runs on every line and not only on the last one. *)
Lemma tailStep_plain_line (logLines : list string) (text : string) :
  text <> "" ->
  MatchString queryStartPattern text = false ->
  MatchString sqlQueryEndPattern text = false ->
  tailStep logLines text = ((logLines ++ [text])%list, [(logLines ++ [text])%list]).
Proof.
  intros Hne Hs He. unfold tailStep.
  destruct (String.eqb_spec text ""); [contradiction|].
  rewrite Hs, He. destruct logLines; reflexivity.
Qed.

(** C1 at the concrete scenario, threshold 0.5: the loop calls
    [processSlowQuery] after each of the five lines, on the growing entry,
    and three of those calls (from the timing line on) post a
    notification, where the specification has exactly one. *)
Theorem scenario_posts_three_times :
  tailCalls scenario =
    [ firstn 1 scenario; firstn 2 scenario; firstn 3 scenario;
      firstn 4 scenario; scenario ] /\
  map (fun ls => List.length (processSlowQuery (config_with f64_0_5) ls))
      (tailCalls scenario) = [0; 0; 1; 1; 1]%nat /\
  List.length (tailSlowLog (config_with f64_0_5) scenario) = 3%nat.
Proof. repeat split; vm_compute; reflexivity. Qed.

(** With the threshold 2.0 the same lines post nothing. *)
Lemma scenario_threshold_two :
  tailSlowLog (config_with f64_2_0) scenario = [].
Proof. vm_compute. reflexivity. Qed.

(** *** The transition system is the loop *)

Lemma on_start_deterministic s text s1 c1 s2 c2 :
  on_start s text s1 c1 -> on_start s text s2 c2 -> s1 = s2 /\ c1 = c2.
Proof.
  intros H1 H2; inversion H1; subst; inversion H2; subst;
    auto; congruence.
Qed.

Lemma on_end_deterministic s text s1 c1 s2 c2 :
  on_end s text s1 c1 -> on_end s text s2 c2 -> s1 = s2 /\ c1 = c2.
Proof.
  intros H1 H2; inversion H1; subst; inversion H2; subst;
    auto; congruence.
Qed.

Lemma on_flush_deterministic s c1 c2 :
  on_flush s c1 -> on_flush s c2 -> c1 = c2.
Proof.
  intros H1 H2; inversion H1; subst; inversion H2; subst;
    auto; congruence.
Qed.

Lemma iteration_deterministic s text s1 c1 s2 c2 :
  iteration s text s1 c1 -> iteration s text s2 c2 -> s1 = s2 /\ c1 = c2.
Proof.
  intros H1 H2.
  inversion H1 as [|? l1 k1 l2 k2 k3 Hne Hs He Hf]; subst;
    inversion H2 as [|? l1' k1' l2' k2' k3' Hne' Hs' He' Hf']; subst;
    try congruence; auto.
  destruct (on_start_deterministic _ _ _ _ _ _ Hs Hs'); subst.
  destruct (on_end_deterministic _ _ _ _ _ _ He He'); subst.
  rewrite (on_flush_deterministic _ _ _ Hf Hf'). auto.
Qed.

Lemma run_deterministic lines : forall s s1 c1 s2 c2,
  run s lines s1 c1 -> run s lines s2 c2 -> s1 = s2 /\ c1 = c2.
Proof.
  induction lines as [|text rest IH]; intros s s1 c1 s2 c2 H1 H2;
    inversion H1; subst; inversion H2; subst; auto.
  match goal with
  | Ha : iteration s text ?a ?ca, Hb : iteration s text ?b ?cb |- _ =>
      destruct (iteration_deterministic _ _ _ _ _ _ Ha Hb); subst
  end.
  match goal with
  | Ha : run ?m rest s1 ?ca, Hb : run ?m rest s2 ?cb |- _ =>
      destruct (IH _ _ _ _ _ Ha Hb); subst
  end.
  auto.
Qed.

Lemma on_flush_nonempty s : on_flush s (if nonempty s then [s] else []).
Proof. destruct s; constructor; congruence. Qed.

Lemma tailStep_iteration s text :
  iteration s text (fst (tailStep s text)) (snd (tailStep s text)).
Proof.
  unfold tailStep. destruct (String.eqb_spec text "") as [->|Hne].
  - constructor.
  - destruct (MatchString queryStartPattern text) eqn:Hs,
             (MatchString sqlQueryEndPattern text) eqn:He; cbn [fst snd].
    + eapply iter_line with (l1 := [text]); eauto using on_end, on_flush.
      destruct s; cbn; constructor; congruence.
    + eapply iter_line with (l1 := [text]) (c3 := [[text]]);
        eauto using on_end.
      * destruct s; cbn; constructor; congruence.
      * constructor; congruence.
    + eapply iter_line with (l1 := (s ++ [text])%list);
        eauto using on_start, on_end, on_flush.
    + eapply iter_line with (l1 := (s ++ [text])%list);
        eauto using on_start, on_end.
      apply on_flush_nonempty.
Qed.

(** Every stream has a run, the one [tailLoop] computes. *)
Lemma tailLoop_run lines : forall s,
  run s lines (fst (tailLoop s lines)) (snd (tailLoop s lines)).
Proof.
  induction lines as [|text rest IH]; intros s; cbn.
  - constructor.
  - pose proof (tailStep_iteration s text) as Hi.
    destruct (tailStep s text) as [s1 c1]. specialize (IH s1).
    destruct (tailLoop s1 rest) as [s2 c2]. cbn in *.
    econstructor; eassumption.
Qed.

(** C9: two runs of the loop over the same lines, each from a fresh
    [logLines], pass the same lists to [processSlowQuery] and so parse the
    same entries in the same order; they are the entries [tailEntries]
    computes, and such a run exists for every list of lines. *)
Theorem segmentation_deterministic
  (lines s1 s2 : list string) (c1 c2 : list (list string)) :
  run [] lines s1 c1 -> run [] lines s2 c2 ->
  map parseEntry c1 = map parseEntry c2 /\
  map parseEntry c1 = tailEntries lines /\
  run [] lines (fst (tailLoop [] lines)) (tailCalls lines).
Proof.
  intros H1 H2.
  destruct (run_deterministic _ _ _ _ _ _ H1 H2) as [_ ->].
  destruct (run_deterministic _ _ _ _ _ _ H2 (tailLoop_run lines [])) as [_ ->].
  repeat split. apply tailLoop_run.
Qed.

Lemma segmentation_deterministic_witness :
  run [] scenario [] (tailCalls scenario) /\
  map parseEntry (tailCalls scenario) = tailEntries scenario.
Proof.
  split.
  - exact (tailLoop_run scenario []).
  - apply (segmentation_deterministic scenario [] [] (tailCalls scenario)
             (tailCalls scenario));
      exact (tailLoop_run scenario []).
Defined.

(** ** [main] and the test flag *)

(** C5 on [main.go]: with the test flag set, [main] goes into the tailing
    loop like without it; it posts no test notification (nothing at all on
    an empty log) and what it posts depends on the log (three posts on the
    scenario). *)
Theorem test_flag_not_read (lines : list string) :
  main test_config lines = Tailing (tailSlowLog test_config lines) /\
  main test_config [] = Tailing [] /\
  (exists p1 p2 p3, main test_config scenario = Tailing [p1; p2; p3]).
Proof.
  repeat split. vm_compute. eauto.
Qed.

(** The variant with the test branch does what the flag promises: one post of
    the fixed message, whatever the log holds, and [main] returns. *)
Lemma part002_test_mode
      (tail : config -> list string -> list request)
      (cfg : config) (lines : list string) :
  webhookURL cfg <> "" -> isTest cfg = true ->
  Part002.main tail cfg lines =
    Returned [ Post (webhookURL cfg) ("Content-Type", "application/json")
                    (payload Part002.testMessage) ].
Proof.
  intros Hu Ht. unfold Part002.main.
  destruct (String.eqb_spec (webhookURL cfg) ""); [contradiction|].
  now rewrite Ht.
Qed.

(** ** The request body *)

Lemma lex_from_app (a b : string) : forall st,
  JSON.lex_from st (a ++ b) =
  match JSON.lex_from st a with
  | Some (st', t1) =>
      match JSON.lex_from st' b with
      | Some (st'', t2) => Some (st'', (t1 ++ t2)%list)
      | None => None
      end
  | None => None
  end.
Proof.
  induction a as [|c a IH]; intros st; cbn [append JSON.lex_from].
  - destruct (JSON.lex_from st b) as [[? ?]|]; reflexivity.
  - destruct (JSON.lex_step st c) as [[st1 o1]|]; [|reflexivity].
    rewrite IH. destruct (JSON.lex_from st1 a) as [[st2 o2]|]; [|reflexivity].
    destruct (JSON.lex_from st2 b) as [[st3 o3]|]; [|reflexivity].
    now rewrite app_assoc.
Qed.

Lemma lex_payload_prefix :
  JSON.lex_from JSON.Normal payload_prefix =
  Some (JSON.InStr "",
        [ JSON.LBrace; JSON.TStr "msgtype"; JSON.Colon; JSON.TStr "markdown";
          JSON.Comma; JSON.TStr "markdown"; JSON.Colon; JSON.LBrace;
          JSON.TStr "content"; JSON.Colon ]).
Proof. vm_compute. reflexivity. Qed.

Lemma lex_payload_suffix (acc : string) :
  JSON.lex_from (JSON.InStr acc) payload_suffix =
  Some (JSON.Normal, [ JSON.TStr acc; JSON.RBrace; JSON.RBrace ]).
Proof. reflexivity. Qed.

(** The dispatch posts one request, with the header Content-Type:
    application/json, whose body is the template with the content put in
    as it is.  When the content is the inside of a JSON string, that body
    is the JSON object with msgtype markdown and markdown.content the
    content. *)
Lemma payload_is_webhook_json (cfg : config) (content : string) :
  sendWebhookNotification cfg content =
    [ Post (webhookURL cfg) ("Content-Type", "application/json")
           (payload_prefix ++ content ++ payload_suffix) ] /\
  (JSON.string_body content ->
   JSON.parse (payload content) = Some (webhook_json content)).
Proof.
  split; [reflexivity|]. intros H.
  unfold JSON.parse, JSON.lex, payload.
  rewrite lex_from_app, lex_payload_prefix, lex_from_app, H, lex_payload_suffix.
  reflexivity.
Qed.

(** The content rendered from the scenario is such a string. *)
Lemma payload_is_webhook_json_witness :
  JSON.string_body (notificationContent (parseEntry scenario)) /\
  JSON.parse (payload (notificationContent (parseEntry scenario))) =
    Some (webhook_json (notificationContent (parseEntry scenario))).
Proof.
  assert (H : JSON.string_body (notificationContent (parseEntry scenario)))
    by (vm_compute; reflexivity).
  split; [exact H|].
  apply (payload_is_webhook_json (config_with f64_0_5) _), H.
Defined.

(** C8 at a statement with a quoted literal: [processSlowQuery] renders it
    and posts one request whose body is not JSON, because the SQL text is
    put into the payload as it is, its double quotes unescaped; a lone
    quote as content fails the same way, and a content can also turn the
    body into a different object. *)
Lemma quoted_content_breaks_body :
  map (fun p => JSON.parse (body p))
      (processSlowQuery (config_with f64_0_5) quoted_statement) = [None] /\
  JSON.parse (payload dq) = None /\
  JSON.parse (payload spliced) =
    Some (JSON.Object
            [ ("msgtype", JSON.Str "markdown");
              ("markdown", JSON.Object [ ("content", JSON.Str "x");
                                         ("y", JSON.Str "z") ]) ]) /\
  JSON.parse (payload spliced) <> Some (webhook_json spliced).
Proof.
  repeat split; try (vm_compute; reflexivity).
  vm_compute. discriminate.
Qed.

(** * Further properties of the loop *)

Lemma matches_MatchString (re : Regexp) (line : string) :
  matches re line = MatchString re line.
Proof.
  unfold matches, FindStringSubmatch, MatchString.
  destruct (search (String.length line) re line); reflexivity.
Qed.

Lemma tailLoop_cons (s : list string) (text : string) (rest : list string) :
  tailLoop s (text :: rest) =
  (fst (tailLoop (fst (tailStep s text)) rest),
   (snd (tailStep s text) ++ snd (tailLoop (fst (tailStep s text)) rest))%list).
Proof.
  cbn [tailLoop]. destruct (tailStep s text) as [s1 c1]. cbn [fst snd].
  destruct (tailLoop s1 rest); reflexivity.
Qed.

Lemma tailStep_blank (s : list string) : tailStep s "" = (s, []).
Proof. reflexivity. Qed.

(** X1: blank lines change nothing: the loop over a stream and over the
    stream without its blank lines make the same calls and end with the
    same pending lines. *)
Theorem blank_lines_ignored (s lines : list string) :
  tailLoop s (filter nonblank lines) = tailLoop s lines.
Proof.
  revert s. induction lines as [|text rest IH]; intros s; [reflexivity|].
  cbn [filter]. unfold nonblank at 1.
  destruct (String.eqb_spec text "") as [->|Hne]; cbn [negb].
  - rewrite (tailLoop_cons s ""), tailStep_blank. cbn [fst snd app].
    rewrite IH. destruct (tailLoop s rest); reflexivity.
  - rewrite !tailLoop_cons, IH. reflexivity.
Qed.

Lemma tailLoop_app (s l1 l2 : list string) :
  tailLoop s (l1 ++ l2) =
  (fst (tailLoop (fst (tailLoop s l1)) l2),
   (snd (tailLoop s l1) ++ snd (tailLoop (fst (tailLoop s l1)) l2))%list).
Proof.
  revert s. induction l1 as [|text rest IH]; intros s.
  - cbn. destruct (tailLoop s l2); reflexivity.
  - cbn [app]. rewrite !tailLoop_cons, IH. cbn [fst snd].
    now rewrite app_assoc.
Qed.

Lemma statement_nonblank (text : string) :
  MatchString sqlQueryEndPattern text = true -> text <> "".
Proof. intros H ->. vm_compute in H. discriminate. Qed.

Lemma tailStep_statement (s : list string) (text : string) :
  MatchString sqlQueryEndPattern text = true -> fst (tailStep s text) = [].
Proof.
  intros H. pose proof (statement_nonblank text H) as Hne. unfold tailStep.
  destruct (String.eqb_spec text ""); [contradiction|].
  destruct (MatchString queryStartPattern text); rewrite H; reflexivity.
Qed.

(** X3: a statement line puts the loop back in its fresh state, so what
    follows it is processed as a stream of its own. *)
Theorem reset_after_statement
  (cfg : config) (l1 l2 : list string) (stmt : string) :
  MatchString sqlQueryEndPattern stmt = true ->
  fst (tailLoop [] (l1 ++ [stmt])) = [] /\
  tailSlowLog cfg (l1 ++ stmt :: l2) =
    (tailSlowLog cfg (l1 ++ [stmt]) ++ tailSlowLog cfg l2)%list.
Proof.
  intros H.
  assert (Hfresh : fst (tailLoop [] (l1 ++ [stmt])) = []).
  { rewrite tailLoop_app. cbn [fst]. rewrite tailLoop_cons. cbn [fst tailLoop].
    apply tailStep_statement, H. }
  split; [exact Hfresh|].
  unfold tailSlowLog, tailCalls.
  change (l1 ++ stmt :: l2)%list with (l1 ++ [stmt] ++ l2)%list.
  rewrite app_assoc, (tailLoop_app [] (l1 ++ [stmt]) l2). cbn [snd].
  now rewrite Hfresh, flat_map_app.
Qed.

Lemma reset_after_statement_witness :
  fst (tailLoop [] (firstn 4 scenario ++ ["SELECT * FROM orders;"])) = [] /\
  tailSlowLog (config_with f64_0_5)
              (firstn 4 scenario ++ "SELECT * FROM orders;" :: scenario) =
    (tailSlowLog (config_with f64_0_5)
                 (firstn 4 scenario ++ ["SELECT * FROM orders;"]) ++
     tailSlowLog (config_with f64_0_5) scenario)%list.
Proof.
  apply (reset_after_statement (config_with f64_0_5) (firstn 4 scenario)
           scenario "SELECT * FROM orders;").
  vm_compute. reflexivity.
Defined.

Lemma tailStep_calls_count (s : list string) (text : string) :
  text <> "" ->
  (1 <= List.length (snd (tailStep s text)) <= 2)%nat.
Proof.
  intros Hne. unfold tailStep.
  destruct (String.eqb_spec text ""); [contradiction|].
  destruct (MatchString queryStartPattern text),
           (MatchString sqlQueryEndPattern text), s; cbn; lia.
Qed.

Lemma processSlowQuery_at_most_one (cfg : config) (c : list string) :
  (List.length (processSlowQuery cfg c) <= 1)%nat.
Proof.
  unfold processSlowQuery, evaluate.
  destruct (float_ge _ _); cbn; lia.
Qed.

Lemma flat_map_length_le {A B : Type} (f : A -> list B) (l : list A) :
  (forall a, (List.length (f a) <= 1)%nat) ->
  (List.length (flat_map f l) <= List.length l)%nat.
Proof.
  intros Hf. induction l as [|a l IH]; cbn; [lia|].
  rewrite length_app. specialize (Hf a). lia.
Qed.

Lemma tailLoop_calls_count (lines : list string) : forall s,
  (List.length (filter nonblank lines)
   <= List.length (snd (tailLoop s lines))
   <= 2 * List.length (filter nonblank lines))%nat.
Proof.
  induction lines as [|text rest IH]; intros s; [cbn; lia|].
  rewrite tailLoop_cons. cbn [snd filter]. rewrite length_app.
  specialize (IH (fst (tailStep s text))). unfold nonblank at 1 4.
  destruct (String.eqb_spec text "") as [->|Hne]; cbn [negb].
  - rewrite tailStep_blank in *. cbn [fst snd List.length] in *. lia.
  - pose proof (tailStep_calls_count s text Hne). cbn [List.length]. lia.
Qed.

(** X4: the loop calls [processSlowQuery] at least once and at most twice
    for every non-blank line it reads, and each call posts at most one
    notification: on [n] non-blank lines there are between [n] and [2n]
    calls and at most [2n] posts. *)
Theorem calls_per_line (cfg : config) (lines : list string) :
  (List.length (filter nonblank lines) <= List.length (tailCalls lines)
   <= 2 * List.length (filter nonblank lines))%nat /\
  (List.length (tailSlowLog cfg lines) <= List.length (tailCalls lines))%nat.
Proof.
  split.
  - apply tailLoop_calls_count.
  - apply flat_map_length_le, processSlowQuery_at_most_one.
Qed.

(** *** What the pending lines can hold *)

Lemma tailStep_pending (s : list string) (text : string) :
  Forall (fun l => l <> "") s ->
  Forall (fun l => MatchString sqlQueryEndPattern l = false) s ->
  Forall (fun l => MatchString queryStartPattern l = false) (tl s) ->
  Forall (fun l => l <> "") (fst (tailStep s text)) /\
  Forall (fun l => MatchString sqlQueryEndPattern l = false) (fst (tailStep s text)) /\
  Forall (fun l => MatchString queryStartPattern l = false) (tl (fst (tailStep s text))).
Proof.
  intros H1 H2 H3. unfold tailStep.
  destruct (String.eqb_spec text "") as [->|Hne]; [cbn; auto|].
  destruct (MatchString queryStartPattern text) eqn:Hs,
           (MatchString sqlQueryEndPattern text) eqn:He; cbn [fst];
    repeat split; auto; try (apply Forall_app; split; auto).
  destruct s as [|x s]; cbn [app tl] in *; auto.
  apply Forall_app; split; auto.
Qed.

(** X5: the pending lines never hold a blank line or a statement line, and
    hold a start marker only as their first line. *)
Theorem pending_invariant (lines : list string) :
  let pending := fst (tailLoop [] lines) in
  Forall (fun l => l <> "") pending /\
  Forall (fun l => MatchString sqlQueryEndPattern l = false) pending /\
  Forall (fun l => MatchString queryStartPattern l = false) (tl pending).
Proof.
  cbn zeta.
  cut (forall s,
         Forall (fun l => l <> "") s ->
         Forall (fun l => MatchString sqlQueryEndPattern l = false) s ->
         Forall (fun l => MatchString queryStartPattern l = false) (tl s) ->
         Forall (fun l => l <> "") (fst (tailLoop s lines)) /\
         Forall (fun l => MatchString sqlQueryEndPattern l = false) (fst (tailLoop s lines)) /\
         Forall (fun l => MatchString queryStartPattern l = false) (tl (fst (tailLoop s lines)))).
  { intros H. apply H; constructor. }
  induction lines as [|text rest IH]; intros s H1 H2 H3; [cbn; auto|].
  rewrite tailLoop_cons. cbn [fst].
  destruct (tailStep_pending s text H1 H2 H3) as (K1 & K2 & K3).
  apply IH; assumption.
Qed.

(** *** The SQL text of the entries the loop hands over *)

Lemma sqlQuery_without_statement (c : list string) :
  Forall (fun l => MatchString sqlQueryEndPattern l = false) c ->
  sqlQuery (parseEntry c) = "".
Proof.
  intros H. apply (scan_no_match Statement c zeroEntry).
  eapply Forall_impl; [|exact H]. intros l Hl. cbn [pattern_of].
  now rewrite matches_MatchString.
Qed.

Lemma sqlQuery_closing_statement (c : list string) (text : string) :
  MatchString sqlQueryEndPattern text = true ->
  sqlQuery (parseEntry (c ++ [text])) = text.
Proof.
  intros H. rewrite parseEntry_app. cbn [fold_left].
  unfold scanLine, scanSQL.
  rewrite <- matches_MatchString in H. unfold matches in H.
  destruct (FindStringSubmatch sqlQueryEndPattern text); [reflexivity|discriminate].
Qed.

Lemma sql_of_call_open (c : list string) :
  Forall (fun l => MatchString sqlQueryEndPattern l = false) c -> sql_of_call c.
Proof. intros H. left. split; [exact H | apply sqlQuery_without_statement, H]. Qed.

Lemma sql_of_call_closing (c : list string) (text : string) :
  MatchString sqlQueryEndPattern text = true -> sql_of_call (c ++ [text]).
Proof.
  intros H. right. rewrite last_last. split; [exact H|].
  apply sqlQuery_closing_statement, H.
Qed.

Lemma tailStep_sql_of_call (s : list string) (text : string) :
  Forall (fun l => MatchString sqlQueryEndPattern l = false) s ->
  Forall sql_of_call (snd (tailStep s text)).
Proof.
  intros H. unfold tailStep.
  destruct (String.eqb_spec text "") as [->|Hne]; [constructor|].
  assert (Hold : Forall sql_of_call (if nonempty s then [s] else [])).
  { destruct s; cbn; constructor; [apply sql_of_call_open, H | constructor]. }
  destruct (MatchString queryStartPattern text) eqn:Hs,
           (MatchString sqlQueryEndPattern text) eqn:He; cbn [snd].
  - apply Forall_app; split; [exact Hold|]. cbn.
    constructor; [|constructor]. apply (sql_of_call_closing [] text He).
  - apply Forall_app; split; [exact Hold|]. cbn.
    constructor; [|constructor]. apply sql_of_call_open.
    constructor; [exact He | constructor].
  - cbn. constructor; [|constructor]. apply sql_of_call_closing, He.
  - assert (Hc : sql_of_call (s ++ [text])).
    { apply sql_of_call_open, Forall_app. split; [exact H|].
      constructor; [exact He | constructor]. }
    destruct s; cbn; (constructor; [exact Hc | constructor]).
Qed.

(** X6: in every entry the loop hands to [processSlowQuery], the SQL text
    is the entry's last line when that line is a statement line, and is
    empty otherwise (no statement line is in the entry then): every
    notification sent before the statement line arrives has no SQL text. *)
Theorem calls_sql_text (lines : list string) :
  Forall sql_of_call (tailCalls lines).
Proof.
  unfold tailCalls.
  cut (forall s,
         Forall (fun l => l <> "") s ->
         Forall (fun l => MatchString sqlQueryEndPattern l = false) s ->
         Forall (fun l => MatchString queryStartPattern l = false) (tl s) ->
         Forall sql_of_call (snd (tailLoop s lines))).
  { intros H. apply H; constructor. }
  induction lines as [|text rest IH]; intros s H1 H2 H3; [constructor|].
  rewrite tailLoop_cons. cbn [snd]. apply Forall_app. split.
  - apply tailStep_sql_of_call, H2.
  - destruct (tailStep_pending s text H1 H2 H3) as (K1 & K2 & K3).
    apply IH; assumption.
Qed.

(** *** One entry, from its first line to its statement line *)

Lemma tailStep_inside (s : list string) (text : string) :
  text <> "" ->
  MatchString queryStartPattern text = false ->
  MatchString sqlQueryEndPattern text = false ->
  tailStep s text = ((s ++ [text])%list, [(s ++ [text])%list]).
Proof.
  intros Hne Hs He. unfold tailStep.
  destruct (String.eqb_spec text ""); [contradiction|].
  rewrite Hs, He. destruct s; reflexivity.
Qed.

Lemma tailStep_last (s : list string) (text : string) :
  text <> "" ->
  MatchString queryStartPattern text = false ->
  snd (tailStep s text) = [(s ++ [text])%list].
Proof.
  intros Hne Hs. unfold tailStep.
  destruct (String.eqb_spec text ""); [contradiction|].
  rewrite Hs. destruct (MatchString sqlQueryEndPattern text), s; reflexivity.
Qed.

Lemma tailStep_first (text : string) :
  text <> "" -> snd (tailStep [] text) = [[text]].
Proof.
  intros Hne. unfold tailStep.
  destruct (String.eqb_spec text ""); [contradiction|].
  destruct (MatchString queryStartPattern text),
           (MatchString sqlQueryEndPattern text); reflexivity.
Qed.

Lemma tailStep_first_open (text : string) :
  text <> "" -> MatchString sqlQueryEndPattern text = false ->
  fst (tailStep [] text) = [text].
Proof.
  intros Hne He. unfold tailStep.
  destruct (String.eqb_spec text ""); [contradiction|].
  rewrite He. destruct (MatchString queryStartPattern text); reflexivity.
Qed.

Lemma tailLoop_inside (lines : list string) : forall s,
  Forall (fun l => l <> "") lines ->
  Forall (fun l => MatchString queryStartPattern l = false) lines ->
  Forall (fun l => MatchString sqlQueryEndPattern l = false) (removelast lines) ->
  snd (tailLoop s lines) = prefixes_from s lines.
Proof.
  induction lines as [|text rest IH]; intros s H1 H2 H3; [reflexivity|].
  inversion H1 as [|? ? Hne H1']; subst. inversion H2 as [|? ? Hs H2']; subst.
  rewrite tailLoop_cons. cbn [snd prefixes_from].
  destruct rest as [|text' rest'].
  - cbn [tailLoop snd]. rewrite app_nil_r. apply tailStep_last; assumption.
  - cbn [removelast] in H3. inversion H3 as [|? ? He H3']; subst.
    rewrite (tailStep_inside s text Hne Hs He). cbn [fst snd app].
    f_equal. apply IH; assumption.
Qed.

Lemma entry_prefix_calls (first : string) (rest : list string) :
  Forall (fun l => l <> "") (first :: rest) ->
  Forall (fun l => MatchString queryStartPattern l = false) rest ->
  Forall (fun l => MatchString sqlQueryEndPattern l = false)
         (removelast (first :: rest)) ->
  tailCalls (first :: rest) = prefixes_from [] (first :: rest).
Proof.
  intros H1 H2 H3.
  unfold tailCalls. rewrite tailLoop_cons. cbn [snd prefixes_from app].
  inversion H1 as [|? ? Hne H1']; subst.
  rewrite (tailStep_first first Hne). cbn [app]. f_equal.
  destruct rest as [|second rest']; [reflexivity|].
  cbn [removelast] in H3. inversion H3 as [|? ? He H3']; subst.
  rewrite (tailStep_first_open first Hne He).
  apply tailLoop_inside; assumption.
Qed.

Lemma prefixes_from_firstn {A : Type} (l : list A) : forall s,
  prefixes_from s l =
  map (fun i => (s ++ firstn i l)%list) (seq 1 (List.length l)).
Proof.
  induction l as [|x l IH]; intros s; [reflexivity|].
  cbn [prefixes_from List.length seq map firstn]. f_equal.
  rewrite IH, <- (seq_shift (List.length l) 1), map_map. apply map_ext. intros i.
  cbn [firstn]. now rewrite <- app_assoc.
Qed.

(** X7: an entry without blank lines, with no start marker after its first
    line and no statement line before its last, is handed to
    [processSlowQuery] once per line: after its first line, its first two
    lines, and so on up to the whole entry. *)
Theorem entry_processed_on_every_prefix (first : string) (rest : list string) :
  Forall (fun l => l <> "") (first :: rest) ->
  Forall (fun l => MatchString queryStartPattern l = false) rest ->
  Forall (fun l => MatchString sqlQueryEndPattern l = false)
         (removelast (first :: rest)) ->
  tailCalls (first :: rest) =
    map (fun i => firstn i (first :: rest)) (seq 1 (List.length (first :: rest))).
Proof.
  intros H1 H2 H3.
  rewrite (entry_prefix_calls first rest H1 H2 H3).
  apply (prefixes_from_firstn (first :: rest) []).
Qed.

Lemma entry_processed_on_every_prefix_witness :
  tailCalls scenario = map (fun i => firstn i scenario) (seq 1 5).
Proof.
  apply (entry_processed_on_every_prefix
           "# Time: 2024-01-01T10:00:00" (tl scenario));
    repeat constructor; discriminate.
Defined.

(** *** How many notifications one entry gives *)

Lemma prefixes_from_app {A : Type} (a b : list A) : forall s,
  prefixes_from s (a ++ b) =
  (prefixes_from s a ++ prefixes_from (s ++ a) b)%list.
Proof.
  induction a as [|x a IH]; intros s; cbn [app prefixes_from].
  - now rewrite app_nil_r.
  - rewrite IH, <- app_assoc. reflexivity.
Qed.

Lemma in_prefixes_from {A : Type} (l : list A) : forall s c,
  In c (prefixes_from s l) -> exists q r, l = (q ++ r)%list /\ c = (s ++ q)%list.
Proof.
  induction l as [|x l IH]; intros s c H; [contradiction|].
  destruct H as [<-|H].
  - exists [x], l. split; reflexivity.
  - destruct (IH _ _ H) as (q & r & -> & ->).
    exists (x :: q), r. split; [reflexivity|]. now rewrite <- app_assoc.
Qed.

Lemma prefixes_from_length {A : Type} (l : list A) : forall s,
  List.length (prefixes_from s l) = List.length l.
Proof. induction l as [|x l IH]; intros s; cbn; [|rewrite IH]; reflexivity. Qed.

Lemma flat_map_length_const {A B : Type} (f : A -> list B) (n : nat) (l : list A) :
  (forall a, In a l -> List.length (f a) = n) ->
  List.length (flat_map f l) = (n * List.length l)%nat.
Proof.
  induction l as [|a l IH]; intros H; cbn [flat_map List.length]; [lia|].
  rewrite length_app, (H a (or_introl eq_refl)), IH; [lia|].
  intros b Hb. apply H. now right.
Qed.

Lemma queryTime_untimed (c : list string) :
  Forall (fun l => matches queryTimePattern l = false) c ->
  queryTime (parseEntry c) = S754_zero false.
Proof. intros H. apply (scan_no_match Timing c zeroEntry H). Qed.

Lemma queryTime_last_timing (pre post : list string) (t : string) :
  matches queryTimePattern t = true ->
  Forall (fun l => matches queryTimePattern l = false) post ->
  queryTime (parseEntry (pre ++ t :: post)) = queryTime (parseEntry [t]).
Proof.
  intros Ht Hpost. rewrite parseEntry_app.
  destruct (scan_no_match Timing post (scanLine (parseEntry pre) t) Hpost) as [-> _].
  apply (scanLine_match Timing (parseEntry pre) zeroEntry t Ht).
Qed.

(** X8: an entry of the slow log (no blank line, no start marker after the
    first line, no statement line before the last) with one timing line,
    whose query time reaches a positive threshold, is notified once for
    the timing line and once more for every line after it. *)
Theorem notifications_per_entry
  (cfg : config) (pre post : list string) (t : string) :
  Forall (fun l => l <> "") (pre ++ t :: post) ->
  Forall (fun l => MatchString queryStartPattern l = false) (tl (pre ++ t :: post)) ->
  Forall (fun l => MatchString sqlQueryEndPattern l = false)
         (removelast (pre ++ t :: post)) ->
  Forall (fun l => matches queryTimePattern l = false) pre ->
  matches queryTimePattern t = true ->
  Forall (fun l => matches queryTimePattern l = false) post ->
  float_ge (S754_zero false) (slowQueryThreshold cfg) = false ->
  float_ge (queryTime (parseEntry [t])) (slowQueryThreshold cfg) = true ->
  List.length (tailSlowLog cfg (pre ++ t :: post)) = S (List.length post).
Proof.
  intros H1 H2 H3 Hpre Ht Hpost Hzero Hslow.
  assert (Hcalls : tailCalls (pre ++ t :: post) = prefixes_from [] (pre ++ t :: post)).
  { destruct (pre ++ t :: post)%list as [|first rest] eqn:E.
    - destruct pre; discriminate.
    - apply entry_prefix_calls; assumption. }
  unfold tailSlowLog. rewrite Hcalls, prefixes_from_app, flat_map_app, length_app.
  cbn [app prefixes_from flat_map]. rewrite length_app.
  rewrite (flat_map_length_const _ 0 (prefixes_from [] pre)).
  - rewrite (flat_map_length_const _ 1 (prefixes_from (pre ++ [t]) post)).
    + rewrite !prefixes_from_length.
      unfold processSlowQuery at 1, evaluate.
      rewrite (queryTime_last_timing pre [] t Ht (Forall_nil _)), Hslow. cbn. lia.
    + intros c Hc. destruct (in_prefixes_from _ _ _ Hc) as (q & r & -> & ->).
      apply Forall_app in Hpost. destruct Hpost as [Hq _].
      unfold processSlowQuery, evaluate. rewrite <- app_assoc. cbn [app].
      rewrite (queryTime_last_timing pre q t Ht Hq), Hslow. reflexivity.
  - intros c Hc. destruct (in_prefixes_from _ _ _ Hc) as (q & r & -> & ->).
    apply Forall_app in Hpre. destruct Hpre as [Hq _].
    unfold processSlowQuery, evaluate. cbn [app].
    now rewrite (queryTime_untimed q Hq), Hzero.
Qed.

Lemma notifications_per_entry_witness :
  List.length (tailSlowLog (config_with f64_0_5) scenario) = 3%nat.
Proof.
  apply (notifications_per_entry (config_with f64_0_5)
           (firstn 2 scenario) (skipn 3 scenario)
           "# Query_time: 1.5  Lock_time: 0.1  Rows_sent: 3  Rows_examined: 500");
    try (repeat constructor; discriminate);
    try (vm_compute; reflexivity).
Defined.

(** * Further properties of the scan *)

Lemma scanLine_irrelevant (e : ParsedEntry) (line : string) :
  relevant line = false -> scanLine e line = e.
Proof.
  unfold relevant, matches, scanLine, scanSQL, scanDatabase, scanUserHost,
    scanTiming.
  destruct (FindStringSubmatch queryTimePattern line);
    destruct (FindStringSubmatch userHostPattern line);
    destruct (FindStringSubmatch databasePattern line);
    destruct (FindStringSubmatch sqlQueryEndPattern line);
    cbn; intros H; try discriminate; reflexivity.
Qed.

(** X9: lines that none of the four patterns matches do not count: an
    entry and the entry without them parse to the same fields, wherever
    those lines stand. *)
Theorem irrelevant_lines_ignored (lines : list string) :
  parseEntry (filter relevant lines) = parseEntry lines.
Proof.
  unfold parseEntry. generalize zeroEntry as e.
  induction lines as [|l lines IH]; intros e; [reflexivity|].
  cbn [filter fold_left]. destruct (relevant l) eqn:Hl; cbn [fold_left].
  - apply IH.
  - rewrite (scanLine_irrelevant e l Hl). apply IH.
Qed.

(** X11: whatever the log holds, every request the loop posts goes to the
    configured URL with the JSON content type, and its body is the payload
    template around the content rendered from one of the entries handed to
    [processSlowQuery], one that reaches the threshold. *)
Theorem posts_shape (cfg : config) (lines : list string) :
  Forall (fun p =>
            url p = webhookURL cfg /\
            header p = ("Content-Type", "application/json") /\
            exists c, In c (tailCalls lines) /\
                      float_ge (queryTime (parseEntry c)) (slowQueryThreshold cfg) = true /\
                      body p = payload (notificationContent (parseEntry c)))
         (tailSlowLog cfg lines).
Proof.
  unfold tailSlowLog. apply Forall_forall. intros p Hp.
  apply in_flat_map in Hp. destruct Hp as (c & Hc & Hp).
  unfold processSlowQuery, evaluate in Hp.
  destruct (float_ge _ _) eqn:Hge; [|contradiction].
  destruct Hp as [<-|[]]. cbn [url header body].
  split; [reflexivity|]. split; [reflexivity|].
  exists c. auto.
Qed.

(** * Properties of the patterns *)

Lemma is_suffix_refl (s : string) : is_suffix s s.
Proof. now exists "". Qed.

Lemma is_suffix_trans (a b c : string) :
  is_suffix a b -> is_suffix b c -> is_suffix a c.
Proof.
  intros [p ->] [q ->]. exists (q ++ p).
  induction q as [|x q IH]; cbn; [reflexivity | now rewrite IH].
Qed.

Lemma is_suffix_cons (x : ascii) (a b : string) :
  is_suffix a b -> is_suffix a (String x b).
Proof. intros [p ->]. now exists (String x p). Qed.

Lemma strip_prefix_sound (p s s' : string) :
  strip_prefix p s = Some s' -> s = p ++ s'.
Proof.
  revert s. induction p as [|a p IH]; intros s H; cbn in H.
  - now inversion H.
  - destruct s as [|b s]; [discriminate|].
    destruct (Ascii.eqb_spec a b) as [->|]; [|discriminate].
    cbn. now rewrite (IH _ H).
Qed.

Lemma lit_exact (p s s' : string) : lit false p s = Some s' -> s = p ++ s'.
Proof.
  revert s. induction p as [|a p IH]; intros s H; cbn in H.
  - now inversion H.
  - destruct s as [|b s]; [discriminate|]. cbn in H.
    destruct (Ascii.eqb_spec a b) as [->|]; [|discriminate].
    cbn. now rewrite (IH _ H).
Qed.

Lemma lit_suffix (ci : bool) (p s s' : string) :
  lit ci p s = Some s' -> is_suffix s' s.
Proof.
  revert s. induction p as [|a p IH]; intros s H; cbn in H.
  - inversion H. apply is_suffix_refl.
  - destruct (lit_char ci a s) as [s1|] eqn:E; [|discriminate].
    apply (is_suffix_trans _ s1); [apply IH, H|].
    unfold lit_char in E. destruct s as [|b s]; [discriminate|].
    destruct (Ascii.eqb a b); [inversion E; apply is_suffix_cons, is_suffix_refl|].
    destruct ci; [|discriminate].
    destruct (Ascii.eqb (to_lower a) (to_lower b));
      [inversion E; apply is_suffix_cons, is_suffix_refl|].
    destruct (fold_extra a) as [x|]; [|discriminate].
    exists x. apply strip_prefix_sound, E.
Qed.

Lemma star_suffix {R : Type} (k : cls) (s : string) (cont : string -> option R) (r : R) :
  star k s cont = Some r -> exists s', is_suffix s' s /\ cont s' = Some r.
Proof.
  induction s as [|x s IH]; cbn; intros H.
  - exists "". split; [apply is_suffix_refl | exact H].
  - destruct (in_cls k x).
    + unfold or_else in H. destruct (star k s cont) as [r'|] eqn:E.
      * inversion H; subst. destruct (IH eq_refl) as (s' & Hs & Hc).
        exists s'. split; [apply is_suffix_cons, Hs | exact Hc].
      * exists (String x s). split; [apply is_suffix_refl | exact H].
    + exists (String x s). split; [apply is_suffix_refl | exact H].
Qed.

Lemma rep_suffix (n : nat) (k : cls) : forall s s',
  rep n k s = Some s' -> is_suffix s' s.
Proof.
  induction n as [|n IH]; intros s s' H; cbn in H.
  - inversion H. apply is_suffix_refl.
  - destruct s as [|x s]; [discriminate|].
    destruct (in_cls k x); [|discriminate].
    apply is_suffix_cons, IH, H.
Qed.

(** A match succeeds only through its continuation, on a suffix of the
    input. *)
Lemma rmatch_suffix (len : nat) (ci : bool) (r : regex) :
  forall s c k res,
    rmatch len ci r s c k = Some res ->
    exists s' c', is_suffix s' s /\ k s' c' = Some res.
Proof.
  induction r as [p|cl|cl|n cl|r1 IH1 r2 IH2|r1 IH1 r2 IH2|i r IH| |];
    intros s c k res H; cbn [rmatch] in H.
  - destruct (lit ci p s) as [s'|] eqn:E; [|discriminate].
    exists s', c. split; [apply (lit_suffix _ _ _ _ E) | exact H].
  - destruct (star_suffix _ _ _ _ H) as (s' & Hs & Hc). eauto.
  - destruct s as [|x s]; [discriminate|].
    destruct (in_cls cl x); [|discriminate].
    destruct (star_suffix _ _ _ _ H) as (s' & Hs & Hc).
    exists s', c. split; [apply is_suffix_cons, Hs | exact Hc].
  - destruct (rep n cl s) as [s'|] eqn:E; [|discriminate].
    exists s', c. split; [apply (rep_suffix _ _ _ _ E) | exact H].
  - destruct (IH1 _ _ _ _ H) as (s1 & c1 & Hs1 & H1).
    destruct (IH2 _ _ _ _ H1) as (s2 & c2 & Hs2 & H2).
    exists s2, c2. split; [apply (is_suffix_trans _ s1); assumption | exact H2].
  - unfold or_else in H.
    destruct (rmatch len ci r1 s c k) eqn:E1.
    + inversion H; subst. apply (IH1 _ _ _ _ E1).
    + apply (IH2 _ _ _ _ H).
  - destruct (IH _ _ _ _ H) as (s1 & c1 & Hs1 & H1). eauto.
  - destruct (String.length s =? len)%nat; [|discriminate].
    exists s, c. split; [apply is_suffix_refl | exact H].
  - destruct s; [|discriminate].
    exists "", c. split; [apply is_suffix_refl | exact H].
Qed.

Lemma search_short (re : Regexp) (len : nat) :
  anchored re ->
  forall s, (String.length s < len)%nat -> search len re s = None.
Proof.
  intros Ha. induction s as [|x s IH]; intros Hlt; cbn [search].
  - rewrite Ha; [reflexivity | cbn in *; lia].
  - rewrite Ha; [|lia]. apply IH. cbn in Hlt. lia.
Qed.

(** An anchored pattern matches a text exactly when it matches at its
    first character. *)
Lemma anchored_MatchString (re : Regexp) (text : string) :
  anchored re ->
  MatchString re text =
  match rmatch (String.length text) (fold_case re) (expr re) text []
               (fun s' c => Some ((0%nat, consumed text s') :: c)) with
  | Some _ => true
  | None => false
  end.
Proof.
  intros Ha. unfold MatchString.
  destruct text as [|x text]; cbn [search].
  - destruct (rmatch _ _ _ _ _ _); reflexivity.
  - destruct (rmatch _ _ _ _ _ _); [reflexivity|].
    rewrite (search_short re _ Ha); [reflexivity | cbn; lia].
Qed.

Lemma queryStartPattern_anchored : anchored queryStartPattern.
Proof.
  intros len s c k H. cbn.
  destruct (Nat.eqb_spec (String.length s) len); [contradiction | reflexivity].
Qed.

Lemma sqlQueryEndPattern_anchored : anchored sqlQueryEndPattern.
Proof.
  intros len s c k H. cbn.
  destruct (Nat.eqb_spec (String.length s) len); [contradiction | reflexivity].
Qed.

Lemma rmatch_Cat len ci r1 r2 s c k :
  rmatch len ci (Cat r1 r2) s c k =
  rmatch len ci r1 s c (fun s' c' => rmatch len ci r2 s' c' k).
Proof. reflexivity. Qed.

Lemma lit_ci_semicolon (s s' : string) :
  lit true ";" s = Some s' -> s = String ";" s'.
Proof.
  destruct s as [|b s0]; [discriminate|].
  destruct b as [[] [] [] [] [] [] [] []]; cbn; intros H;
    try discriminate; inversion H; reflexivity.
Qed.

Lemma start_marker_prefix (text : string) :
  MatchString queryStartPattern text = true ->
  exists rest, text = "# Time: " ++ rest.
Proof.
  rewrite (anchored_MatchString _ _ queryStartPattern_anchored).
  destruct (rmatch _ _ _ _ _ _) as [res|] eqn:E; [intros _|discriminate].
  unfold queryStartPattern in E. cbn [expr fold_case] in E.
  rewrite !rmatch_Cat in E. cbn [rmatch] in E.
  destruct (String.length text =? String.length text)%nat; [|discriminate].
  destruct (lit false "# Time: " text) as [rest|] eqn:L; [|discriminate].
  exists rest. apply lit_exact, L.
Qed.

Lemma statement_semicolon (text : string) :
  MatchString sqlQueryEndPattern text = true ->
  exists body, text = body ++ ";".
Proof.
  rewrite (anchored_MatchString _ _ sqlQueryEndPattern_anchored).
  destruct (rmatch _ _ _ _ _ _) as [res|] eqn:E; [intros _|discriminate].
  unfold sqlQueryEndPattern in E. cbn [expr fold_case] in E.
  rewrite 2 rmatch_Cat in E.
  destruct (rmatch_suffix _ _ _ _ _ _ _ E) as (s' & c' & [p Hp] & H).
  cbn [rmatch] in H.
  destruct (lit true ";" s') as [s''|] eqn:L; [|discriminate].
  destruct s''; [|discriminate].
  exists p. rewrite Hp. f_equal. apply lit_ci_semicolon, L.
Qed.

Lemma markers_exclusive (text : string) :
  MatchString queryStartPattern text = true ->
  MatchString sqlQueryEndPattern text = false.
Proof.
  intros H. destruct (start_marker_prefix text H) as [rest ->].
  rewrite (anchored_MatchString _ _ sqlQueryEndPattern_anchored).
  cbn. destruct (_ =? _)%nat; reflexivity.
Qed.

(** X12: the two markers have the shape their patterns spell and exclude
    one another: a start marker begins with [# Time: ] at the first
    character of the line; a statement line ends with a semicolon as its
    last character; and no line is both. *)
Theorem marker_shapes (text : string) :
  (MatchString queryStartPattern text = true ->
   exists rest, text = "# Time: " ++ rest) /\
  (MatchString sqlQueryEndPattern text = true ->
   exists body, text = body ++ ";") /\
  (MatchString queryStartPattern text = true ->
   MatchString sqlQueryEndPattern text = false).
Proof.
  split; [apply start_marker_prefix|].
  split; [apply statement_semicolon | apply markers_exclusive].
Qed.

Lemma marker_shapes_witness :
  (exists rest, "# Time: 2024-01-01T10:00:00" = "# Time: " ++ rest) /\
  (exists body, "SELECT * FROM orders;" = body ++ ";") /\
  MatchString sqlQueryEndPattern "# Time: 2024-01-01T10:00:00" = false.
Proof.
  destruct (marker_shapes "# Time: 2024-01-01T10:00:00") as (H1 & _ & H3).
  destruct (marker_shapes "SELECT * FROM orders;") as (_ & H2 & _).
  split; [apply H1; vm_compute; reflexivity|].
  split; [apply H2; vm_compute; reflexivity|].
  apply H3. vm_compute. reflexivity.
Defined.



(** * Properties of the variant with the test branch *)

Lemma part002_tailLoop_cons (s : list string) (line : string) (rest : list string) :
  Part002Loop.tailLoop s (line :: rest) =
  (fst (Part002Loop.tailLoop (fst (Part002Loop.tailStep s line)) rest),
   (snd (Part002Loop.tailStep s line) ++
    snd (Part002Loop.tailLoop (fst (Part002Loop.tailStep s line)) rest))%list).
Proof.
  cbn [Part002Loop.tailLoop].
  destruct (Part002Loop.tailStep s line) as [s1 c1]. cbn [fst snd].
  destruct (Part002Loop.tailLoop s1 rest); reflexivity.
Qed.

Lemma part002_chunks (lines : list string) : forall s,
  (List.length s <= 6)%nat ->
  (List.concat (snd (Part002Loop.tailLoop s lines)) ++
   fst (Part002Loop.tailLoop s lines))%list = (s ++ lines)%list /\
  Forall (fun c => List.length c = 6%nat) (snd (Part002Loop.tailLoop s lines)) /\
  (List.length (fst (Part002Loop.tailLoop s lines)) <= 6)%nat /\
  (lines <> [] -> (1 <= List.length (fst (Part002Loop.tailLoop s lines)))%nat).
Proof.
  induction lines as [|line rest IH]; intros s Hs.
  - cbn. rewrite app_nil_r. repeat split; auto. congruence.
  - rewrite part002_tailLoop_cons. cbn [fst snd]. unfold Part002Loop.tailStep.
    destruct (Nat.leb_spec 6 (List.length s)) as [Hge|Hlt]; cbn [fst snd].
    + destruct (IH [line]) as (H1 & H2 & H3 & H4); [cbn; lia|].
      cbn [List.concat app]. rewrite <- app_assoc, H1. cbn [app].
      repeat split; auto.
      * constructor; [lia | exact H2].
      * intros _. destruct rest as [|l2 rest']; [cbn; lia|].
        apply H4. discriminate.
    + destruct (IH (s ++ [line])%list) as (H1 & H2 & H3 & H4);
        [rewrite length_app; cbn; lia|].
      cbn [app]. rewrite H1, <- app_assoc.
      repeat split; auto.
      intros _. destruct rest as [|l2 rest']; [|apply H4; discriminate].
      cbn. rewrite length_app. cbn. lia.
Qed.

Lemma concat_length_const {A : Type} (n : nat) (l : list (list A)) :
  Forall (fun c => List.length c = n) l ->
  List.length (List.concat l) = (n * List.length l)%nat.
Proof.
  induction 1 as [|c l Hc _ IH]; cbn; [lia|].
  rewrite length_app, IH, Hc. lia.
Qed.

Lemma part002_calls_count (lines : list string) :
  List.length (Part002Loop.tailCalls lines) = ((List.length lines - 1) / 6)%nat.
Proof.
  destruct (part002_chunks lines []) as (H1 & H2 & H3 & H4); [cbn; lia|].
  cbn [app] in H1. unfold Part002Loop.tailCalls.
  pose proof (concat_length_const 6 _ H2) as Hc.
  pose proof (f_equal (@List.length string) H1) as Hl.
  rewrite length_app, Hc in Hl.
  destruct lines as [|l0 rest]; [destruct (snd _); cbn in *; [reflexivity|lia]|].
  specialize (H4 ltac:(discriminate)).
  apply (Nat.div_unique _ 6 _
    (List.length (fst (Part002Loop.tailLoop [] (l0 :: rest))) - 1)); cbn [List.length] in *; lia.
Qed.

(** X14: the variant cuts the stream into consecutive entries of exactly
    six lines, blank lines included: the entries it processes, followed by
    the lines still pending, are the stream itself, with no line lost,
    repeated or moved; between one and six lines are always left pending,
    so the last entry is not processed until another line arrives. *)
Theorem part002_six_line_entries (lines : list string) :
  (List.concat (Part002Loop.tailCalls lines) ++
   fst (Part002Loop.tailLoop [] lines))%list = lines /\
  Forall (fun c => List.length c = 6%nat) (Part002Loop.tailCalls lines) /\
  List.length (Part002Loop.tailCalls lines) = ((List.length lines - 1) / 6)%nat /\
  (lines <> [] ->
   (1 <= List.length (fst (Part002Loop.tailLoop [] lines)) <= 6)%nat).
Proof.
  unfold Part002Loop.tailCalls.
  destruct (part002_chunks lines []) as (H1 & H2 & H3 & H4); [cbn; lia|].
  cbn [app] in H1. repeat split; auto.
  apply part002_calls_count.
Qed.

Lemma part002_at_most_one (cfg : config) (c : list string) :
  (List.length (Part002Loop.processSlowQuery cfg c) <= 1)%nat.
Proof.
  unfold Part002Loop.processSlowQuery. cbn zeta.
  destruct (float_ge _ _); cbn; lia.
Qed.

(** X15: the variant notifies each six-line entry at most once: on [n]
    lines it posts at most [(n - 1) / 6] notifications, and none at all
    while the stream has six lines or fewer. *)
Theorem part002_posts_bound (cfg : config) (lines : list string) :
  (List.length (Part002Loop.tailSlowLog cfg lines)
   <= (List.length lines - 1) / 6)%nat /\
  ((List.length lines <= 6)%nat -> Part002Loop.tailSlowLog cfg lines = []).
Proof.
  pose proof (part002_calls_count lines) as Hn.
  assert (Hb : (List.length (Part002Loop.tailSlowLog cfg lines)
                <= (List.length lines - 1) / 6)%nat).
  { rewrite <- Hn. apply flat_map_length_le, part002_at_most_one. }
  split; [exact Hb|]. intros Hsix.
  assert (((List.length lines - 1) / 6 = 0)%nat) as Hz
    by (apply Nat.div_small; lia).
  rewrite Hz in Hb. destruct (Part002Loop.tailSlowLog cfg lines); [reflexivity|].
  cbn in Hb. lia.
Qed.

Lemma part002_posts_bound_witness :
  Part002Loop.tailSlowLog (config_with f64_0_5) scenario = [].
Proof.
  apply (part002_posts_bound (config_with f64_0_5) scenario). cbn. lia.
Defined.

(** X16: in the variant the test flag works: with a URL and [-t] the
    program posts exactly one request and returns, whatever the log
    holds; the request goes to the configured URL and its body is the
    JSON object whose content is the fixed test message. *)
Theorem part002_test_mode_program (cfg : config) (lines : list string) :
  webhookURL cfg <> "" -> isTest cfg = true ->
  Part002Loop.program cfg lines =
    Returned [ Post (webhookURL cfg) ("Content-Type", "application/json")
                    (payload Part002.testMessage) ] /\
  JSON.parse (payload Part002.testMessage) =
    Some (webhook_json Part002.testMessage).
Proof.
  intros Hu Ht. split; [|vm_compute; reflexivity].
  unfold Part002Loop.program, Part002.main.
  destruct (String.eqb_spec (webhookURL cfg) ""); [contradiction|].
  now rewrite Ht.
Qed.

Lemma part002_test_mode_program_witness :
  Part002Loop.program test_config scenario =
    Returned [ Post "https://example.test/hook"
                    ("Content-Type", "application/json")
                    (payload Part002.testMessage) ] /\
  JSON.parse (payload Part002.testMessage) =
    Some (webhook_json Part002.testMessage).
Proof.
  apply (part002_test_mode_program test_config scenario).
  - discriminate.
  - reflexivity.
Defined.

(** * Properties of the rendered content *)

Lemma append_nil_r (s : string) : s ++ "" = s.
Proof. induction s as [|c s IH]; cbn; [|rewrite IH]; reflexivity. Qed.

Lemma append_assoc (a b c : string) : (a ++ b) ++ c = a ++ (b ++ c).
Proof. induction a as [|x a IH]; cbn; [|rewrite IH]; reflexivity. Qed.

Lemma lex_step_shift (p : string) (st st' : JSON.lstate) (c : ascii) :
  in_string st = true ->
  JSON.lex_step st c = Some (st', []) ->
  in_string st' = true /\ JSON.lex_step (shift p st) c = Some (shift p st', []).
Proof.
  intros Hin H. destruct st as [|a|a|a n|a]; try discriminate;
    cbn [JSON.lex_step shift] in *; unfold JSON.snoc in *.
  - destruct (JSON.code c =? 34)%nat; [discriminate|].
    destruct (JSON.code c =? 92)%nat;
      [inversion H; subst; cbn; now rewrite append_assoc|].
    destruct (JSON.code c <? 32)%nat; [discriminate|].
    inversion H; subst; cbn; now rewrite append_assoc.
  - destruct (JSON.is_escape c);
      [inversion H; subst; cbn; now rewrite append_assoc|].
    destruct (JSON.code c =? 117)%nat; [|discriminate].
    inversion H; subst; cbn; now rewrite append_assoc.
  - destruct (JSON.is_hex c); [|discriminate].
    destruct n as [|[|m]]; inversion H; subst; cbn; now rewrite append_assoc.
Qed.

Lemma lex_from_shift (p : string) (s : string) : forall st st',
  in_string st = true ->
  JSON.lex_from st s = Some (st', []) ->
  in_string st' = true /\ JSON.lex_from (shift p st) s = Some (shift p st', []).
Proof.
  induction s as [|c s IH]; intros st st' Hin H; cbn [JSON.lex_from] in *.
  - inversion H; subst. auto.
  - destruct (JSON.lex_step st c) as [[st1 o1]|] eqn:E1; [|discriminate].
    destruct (JSON.lex_from st1 s) as [[st2 o2]|] eqn:E2; [|discriminate].
    inversion H as [[Hst Ho]]. apply app_eq_nil in Ho. destruct Ho as [-> ->].
    subst st2.
    destruct (lex_step_shift p st st1 c Hin E1) as [Hin1 ->].
    destruct (IH st1 st' Hin1 E2) as [Hin' ->]. auto.
Qed.

(** Two insides of JSON strings, one after the other, are the inside of a
    JSON string. *)
Lemma string_body_app (a b : string) :
  JSON.string_body a -> JSON.string_body b -> JSON.string_body (a ++ b).
Proof.
  unfold JSON.string_body. intros Ha Hb.
  rewrite lex_from_app, Ha.
  destruct (lex_from_shift a b (JSON.InStr "") (JSON.InStr b) eq_refl Hb) as [_ H].
  cbn [shift] in H. rewrite append_nil_r in H. now rewrite H.
Qed.

Lemma all_plain_app (a b : string) :
  all_plain (a ++ b) = all_plain a && all_plain b.
Proof.
  induction a as [|c a IH]; cbn; [reflexivity|].
  now rewrite IH, andb_assoc.
Qed.

Lemma plain_lex (s : string) : forall acc,
  all_plain s = true ->
  JSON.lex_from (JSON.InStr acc) s = Some (JSON.InStr (acc ++ s), []).
Proof.
  induction s as [|c s IH]; intros acc H; cbn [JSON.lex_from].
  - now rewrite append_nil_r.
  - cbn [all_plain] in H. apply andb_prop in H. destruct H as [Hc Hs].
    unfold plain_char in Hc.
    apply andb_prop in Hc. destruct Hc as [Hc H92].
    apply andb_prop in Hc. destruct Hc as [H32 H34].
    cbn [JSON.lex_step]. unfold JSON.code.
    apply negb_true_iff in H34, H92. rewrite H34, H92.
    apply Nat.leb_le in H32.
    destruct (Nat.ltb_spec (nat_of_ascii c) 32); [lia|].
    rewrite (IH _ Hs). unfold JSON.snoc. rewrite append_assoc. reflexivity.
Qed.

Lemma plain_is_string_body (s : string) :
  all_plain s = true -> JSON.string_body s.
Proof. intros H. apply (plain_lex s "" H). Qed.

Lemma digit_plain (n : nat) :
  (n < 10)%nat -> plain_char (ascii_of_nat (48 + n)) = true.
Proof.
  intros H. do 10 (destruct n as [|n]; [reflexivity|]). lia.
Qed.

Lemma mod10_digit_plain (z : Z) :
  plain_char (ascii_of_nat (48 + Z.to_nat (z mod 10))) = true.
Proof.
  apply digit_plain. pose proof (Z.mod_pos_bound z 10 eq_refl). lia.
Qed.

Lemma dec_digits_plain (fuel : nat) : forall z acc,
  all_plain acc = true -> all_plain (dec_digits fuel z acc) = true.
Proof.
  induction fuel as [|fuel IH]; intros z acc H; cbn [dec_digits].
  - cbn [all_plain]. now rewrite mod10_digit_plain, H.
  - assert (Hacc : all_plain (String (ascii_of_nat (48 + Z.to_nat (z mod 10))) acc) = true)
      by (cbn [all_plain]; now rewrite mod10_digit_plain, H).
    destruct (z <? 10); [exact Hacc | apply IH, Hacc].
Qed.

Lemma fmt_d_plain (z : Z) : all_plain (fmt_d z) = true.
Proof.
  unfold fmt_d, dec_string.
  destruct (z <? 0); [rewrite all_plain_app|]; rewrite dec_digits_plain; reflexivity.
Qed.

Lemma fmt_f2_plain (x : float64) : all_plain (fmt_f2 x) = true.
Proof.
  destruct x as [s|s| |s m e]; cbn [fmt_f2]; try (destruct s; reflexivity);
    [reflexivity|].
  rewrite !all_plain_app. unfold dec_string, two_digits.
  rewrite dec_digits_plain by reflexivity. cbn [all_plain].
  rewrite mod10_digit_plain, digit_plain.
  - destruct s; reflexivity.
  - pose proof (Z.mod_pos_bound (hundredths m e) 100 eq_refl) as Hb.
    assert (0 <= hundredths m e mod 100 / 10 < 10)
      by (split; [apply Z.div_pos; lia | apply Z.div_lt_upper_bound; lia]).
    lia.
Qed.

Lemma parse_payload_body (content : string) :
  JSON.string_body content ->
  JSON.parse (payload content) = Some (webhook_json content).
Proof.
  intros H. unfold JSON.parse, JSON.lex, payload.
  rewrite lex_from_app, lex_payload_prefix, lex_from_app, H, lex_payload_suffix.
  reflexivity.
Qed.

Ltac body_piece :=
  first [ assumption
        | apply plain_is_string_body, fmt_f2_plain
        | apply plain_is_string_body, fmt_d_plain
        | vm_compute; reflexivity ].

Lemma notificationContent_body (e : ParsedEntry) :
  JSON.string_body (database e) -> JSON.string_body (host e) ->
  JSON.string_body (user e) -> JSON.string_body (sqlQuery e) ->
  JSON.string_body (notificationContent e).
Proof.
  intros Hd Hh Hu Hq. unfold notificationContent.
  repeat (apply string_body_app; [body_piece|]). body_piece.
Qed.

(** X17: the fixed text of the notification is sound JSON string content
    and so are the numbers it prints; only the four text fields can break
    the body.  When the database, host, user and SQL text of the entry are
    each the inside of a JSON string (for instance free of double quotes,
    backslashes and control characters), every request [processSlowQuery]
    posts for it has a body that is the JSON object with msgtype markdown
    and the rendered content. *)
Theorem rendered_body_is_json (cfg : config) (logLines : list string) :
  JSON.string_body (database (parseEntry logLines)) ->
  JSON.string_body (host (parseEntry logLines)) ->
  JSON.string_body (user (parseEntry logLines)) ->
  JSON.string_body (sqlQuery (parseEntry logLines)) ->
  Forall (fun p => JSON.parse (body p) =
                   Some (webhook_json (notificationContent (parseEntry logLines))))
         (processSlowQuery cfg logLines).
Proof.
  intros Hd Hh Hu Hq. unfold processSlowQuery, evaluate.
  destruct (float_ge _ _); [|constructor].
  constructor; [|constructor]. cbn [sendWebhookNotification body].
  apply parse_payload_body, notificationContent_body; assumption.
Qed.

Lemma rendered_body_is_json_witness :
  Forall (fun p => JSON.parse (body p) =
                   Some (webhook_json (notificationContent (parseEntry scenario))))
         (processSlowQuery (config_with f64_0_5) scenario).
Proof.
  apply (rendered_body_is_json (config_with f64_0_5) scenario);
    apply plain_is_string_body; vm_compute; reflexivity.
Defined.

(** * Properties of the parsed times *)

Lemma shr_1_nonneg (mrs : shr_record) :
  0 <= shr_m mrs -> 0 <= shr_m (shr_1 mrs).
Proof.
  destruct mrs as [m r s]. cbn [shr_m]. intros H.
  destruct m as [|[p|p|]|p]; cbn; lia.
Qed.

Lemma iter_shr_1_nonneg (p : positive) : forall mrs,
  0 <= shr_m mrs -> 0 <= shr_m (iter_pos shr_1 p mrs).
Proof.
  induction p as [p IH|p IH|]; intros mrs H; cbn [iter_pos].
  - apply IH, IH, shr_1_nonneg, H.
  - apply IH, IH, H.
  - apply shr_1_nonneg, H.
Qed.

Lemma shr_fexp_nonneg (m e : Z) (l : location) :
  0 <= m -> 0 <= shr_m (fst (shr_fexp 53 1024 m e l)).
Proof.
  intros H. unfold shr_fexp, shr.
  assert (H0 : 0 <= shr_m (shr_record_of_loc m l))
    by (destruct l as [|[]]; exact H).
  destruct (_ - e) as [|p|p]; cbn [fst]; auto using iter_shr_1_nonneg.
Qed.

Lemma round_nearest_even_nonneg (m : Z) (l : location) :
  0 <= m -> 0 <= round_nearest_even m l.
Proof.
  intros H. unfold round_nearest_even.
  destruct l as [|[]]; try destruct (Z.even m); lia.
Qed.

Lemma binary_round_aux_nonneg (mx ex : Z) (lx : location) :
  0 <= mx -> nonneg_float (binary_round_aux 53 1024 false mx ex lx).
Proof.
  intros H. unfold binary_round_aux.
  pose proof (shr_fexp_nonneg mx ex lx H) as H1.
  destruct (shr_fexp 53 1024 mx ex lx) as [mrs' e']. cbn [fst] in H1.
  pose proof (shr_fexp_nonneg _ e' loc_Exact
                (round_nearest_even_nonneg _ (loc_of_shr_record mrs') H1)) as H2.
  destruct (shr_fexp 53 1024 _ e' loc_Exact) as [mrs'' e'']. cbn [fst] in H2.
  destruct (shr_m mrs'') as [|m|m]; [exact I | | lia].
  destruct (e'' <=? 1024 - 53); exact I.
Qed.

Lemma nearest_float64_nonneg (n d : Z) : nonneg_float (nearest_float64 n d).
Proof.
  unfold nearest_float64. destruct n as [|pn|pn]; try exact I.
  destruct d as [|pd|pd]; try exact I.
  unfold SFdiv, SFdiv_core_binary.
  set (m' := match _ - _ - _ with Z0 => _ | Zpos _ => _ | Zneg _ => _ end).
  assert (Hm : 0 <= m').
  { subst m'. destruct (_ - _ - _); try lia. apply Z.shiftl_nonneg. lia. }
  pose proof (Z.div_pos m' (Zpos pd) Hm eq_refl) as Hq.
  unfold Z.div in Hq.
  destruct (Z.div_eucl m' (Zpos pd)) as [q r]. cbn [fst] in Hq.
  apply binary_round_aux_nonneg, Hq.
Qed.

Lemma ParseFloat_nonneg (s : string) : nonneg_float (ParseFloat s).
Proof.
  unfold ParseFloat.
  destruct (read_digits 0 0 s) as [[ip n1] rest].
  destruct n1; [exact I|].
  destruct rest as [|c rest']; [apply nearest_float64_nonneg|].
  destruct (Ascii.eqb c "."); [|exact I].
  destruct (read_digits ip 0 rest') as [[v n2] rest''].
  destruct n2; [exact I|]. destruct rest''; [apply nearest_float64_nonneg | exact I].
Qed.

Lemma parsed_times_nonneg_from (lines : list string) : forall e,
  nonneg_float (queryTime e) /\ nonneg_float (lockTime e) ->
  nonneg_float (queryTime (fold_left scanLine lines e)) /\
  nonneg_float (lockTime (fold_left scanLine lines e)).
Proof.
  induction lines as [|l lines IH]; intros e He; [exact He|].
  cbn [fold_left]. apply IH.
  unfold scanLine, scanSQL, scanDatabase, scanUserHost, scanTiming.
  destruct (FindStringSubmatch queryTimePattern l);
    destruct (FindStringSubmatch userHostPattern l);
    destruct (FindStringSubmatch databasePattern l);
    destruct (FindStringSubmatch sqlQueryEndPattern l);
    cbn; auto using ParseFloat_nonneg.
Qed.

(** X18: the query time and the lock time of a parsed entry are never NaN
    and never negative: each is 0, a positive number, or +Inf when the
    numeral is too large for a [float64]. *)
Theorem parsed_times_nonneg (lines : list string) :
  nonneg_float (queryTime (parseEntry lines)) /\
  nonneg_float (lockTime (parseEntry lines)).
Proof. apply parsed_times_nonneg_from. split; exact I. Qed.

Lemma float_ge_nonpositive (x thr : float64) :
  nonneg_float x -> nonpositive_float thr -> float_ge x thr = true.
Proof.
  unfold float_ge, SFleb.
  destruct x as [[]|[]| |[] mx ex], thr as [[]|[]| |[] mt et];
    cbn; intros Hx Ht; try contradiction; reflexivity.
Qed.

(** X19: with a threshold of 0 or below ([-s 0], a negative value) every
    entry handed to [processSlowQuery] is notified, with or without a
    timing line: the loop posts once per call, so at least once for every
    non-blank line of the log. *)
Theorem nonpositive_threshold_notifies_all (cfg : config) (lines : list string) :
  nonpositive_float (slowQueryThreshold cfg) ->
  List.length (tailSlowLog cfg lines) = List.length (tailCalls lines) /\
  (List.length (filter nonblank lines) <= List.length (tailSlowLog cfg lines))%nat.
Proof.
  intros Hthr.
  assert (H : List.length (tailSlowLog cfg lines) = List.length (tailCalls lines)).
  { unfold tailSlowLog.
    rewrite (flat_map_length_const (processSlowQuery cfg) 1); [lia|].
    intros c _. unfold processSlowQuery, evaluate.
    destruct (parsed_times_nonneg_from c zeroEntry (conj I I)) as [Hq _].
    fold (parseEntry c) in Hq.
    now rewrite (float_ge_nonpositive _ _ Hq Hthr). }
  split; [exact H|]. rewrite H. apply tailLoop_calls_count.
Qed.

Lemma nonpositive_threshold_notifies_all_witness :
  List.length (tailSlowLog (config_with (S754_zero false)) scenario) = 5%nat.
Proof.
  apply (nonpositive_threshold_notifies_all (config_with (S754_zero false)) scenario).
  exact I.
Defined.

(** * Properties of the submatches *)

Lemma star_run {R : Type} (k : cls) (s : string) (cont : string -> option R) (r : R) :
  star k s cont = Some r ->
  exists p s', s = p ++ s' /\ all_in k p = true /\ cont s' = Some r.
Proof.
  induction s as [|x s IH]; cbn [star]; intros H.
  - exists "", "". auto.
  - destruct (in_cls k x) eqn:Hx.
    + unfold or_else in H. destruct (star k s cont) as [r'|] eqn:E.
      * inversion H; subst. destruct (IH eq_refl) as (p & s' & -> & Hp & Hc).
        exists (String x p), s'. cbn. rewrite Hx, Hp. auto.
      * exists "", (String x s). auto.
    + exists "", (String x s). auto.
Qed.

Lemma lit_spans_suffix (ci : bool) (p s s' : string) :
  lit ci p s = Some s' -> exists q, s = q ++ s'.
Proof. intros H. apply (lit_suffix ci p s s' H). Qed.

(** What a successful match hands to its continuation: a suffix the
    expression spans to, and on top of the submatches it was given one
    text for each group that took part, all of them texts those groups can
    capture, with every group that always takes part among them. *)
Lemma rmatch_sound (len : nat) (ci : bool) (r : regex) :
  forall s c k res,
    rmatch len ci r s c k = Some res ->
    exists s' c1,
      k s' (c1 ++ c)%list = Some res /\
      spans len ci r s s' /\
      Forall (fun it => group_text len ci r (fst it) (snd it)) c1 /\
      (forall i, In i (always_set r) -> In i (map fst c1)).
Proof.
  induction r as [p|cl|cl|n cl|r1 IH1 r2 IH2|r1 IH1 r2 IH2|i r IH| |];
    intros s c k res H; cbn [rmatch] in H.
  - destruct (lit ci p s) as [s'|] eqn:E; [|discriminate].
    exists s', []. cbn. repeat split; auto; try contradiction.
  - destruct (star_run _ _ _ _ H) as (p & s' & -> & Hp & Hc).
    exists s', []. cbn. repeat split; eauto; try contradiction.
  - destruct s as [|x s]; [discriminate|].
    destruct (in_cls cl x) eqn:Hx; [|discriminate].
    destruct (star_run _ _ _ _ H) as (p & s' & -> & Hp & Hc).
    exists s', []. cbn. repeat split; eauto; try contradiction.
  - destruct (rep n cl s) as [s'|] eqn:E; [|discriminate].
    exists s', []. cbn. repeat split; auto; try contradiction.
  - destruct (IH1 _ _ _ _ H) as (s1 & c1 & H1 & M1 & G1 & A1).
    destruct (IH2 _ _ _ _ H1) as (s2 & c2 & H2 & M2 & G2 & A2).
    exists s2, (c2 ++ c1)%list. rewrite <- app_assoc. cbn [spans].
    repeat split; eauto.
    + apply Forall_app. split.
      * eapply Forall_impl; [|exact G2]. cbn. auto.
      * eapply Forall_impl; [|exact G1]. cbn. auto.
    + intros j Hj. cbn [always_set] in Hj. rewrite map_app.
      apply in_app_iff in Hj. apply in_app_iff. destruct Hj; auto.
  - unfold or_else in H. destruct (rmatch len ci r1 s c k) eqn:E1.
    + inversion H; subst.
      destruct (IH1 _ _ _ _ E1) as (s1 & c1 & H1 & M1 & G1 & A1).
      exists s1, c1. cbn [spans]. repeat split; auto; try contradiction.
      eapply Forall_impl; [|exact G1]. cbn. auto.
    + destruct (IH2 _ _ _ _ H) as (s1 & c1 & H1 & M1 & G1 & A1).
      exists s1, c1. cbn [spans]. repeat split; auto; try contradiction.
      eapply Forall_impl; [|exact G1]. cbn. auto.
  - destruct (IH _ _ _ _ H) as (s1 & c1 & H1 & M1 & G1 & A1).
    exists s1, ((i, consumed s s1) :: c1). cbn [app spans].
    repeat split; auto.
    + constructor.
      * cbn. left. split; [reflexivity|]. eauto.
      * eapply Forall_impl; [|exact G1]. cbn. auto.
    + intros j Hj. cbn in Hj |- *. destruct Hj; auto.
  - destruct (Nat.eqb_spec (String.length s) len); [|discriminate].
    exists s, []. cbn. repeat split; auto; try contradiction.
  - destruct s; [|discriminate].
    exists "", []. cbn. repeat split; auto; try contradiction.
Qed.

Lemma search_found (len : nat) (re : Regexp) : forall s res,
  search len re s = Some res ->
  exists s0,
    rmatch len (fold_case re) (expr re) s0 []
           (fun s' c => Some ((0%nat, consumed s0 s') :: c)) = Some res.
Proof.
  induction s as [|x s IH]; intros res H; cbn [search] in H.
  - destruct (rmatch _ _ _ "" _ _) eqn:E; [|discriminate].
    inversion H; subst. eauto.
  - destruct (rmatch _ _ _ (String x s) _ _) eqn:E.
    + inversion H; subst. eauto.
    + apply IH, H.
Qed.

Lemma lookup_in (i : nat) (c : caps) :
  In i (map fst c) -> In (i, lookup i c) c.
Proof.
  induction c as [|[j t] c IH]; cbn; [contradiction|].
  destruct (Nat.eqb_spec i j) as [->|Hne]; [auto|].
  intros [H|H]; [congruence | right; apply IH, H].
Qed.

(** The text [FindStringSubmatch] returns for a group that always takes
    part is a text that group can capture. *)
Lemma submatch_group (re : Regexp) (line : string) (ms : list string) (i : nat) :
  FindStringSubmatch re line = Some ms ->
  In i (always_set (expr re)) -> (1 <= i <= num_groups re)%nat ->
  group_text (String.length line) (fold_case re) (expr re) i (matches_at ms i).
Proof.
  unfold FindStringSubmatch. intros H Hi Hb.
  destruct (search _ re line) as [res|] eqn:E; [|discriminate].
  inversion H; subst ms. clear H.
  destruct (search_found _ _ _ _ E) as (s0 & Hr).
  destruct (rmatch_sound _ _ _ _ _ _ _ Hr) as (s' & c1 & Hk & _ & G & A).
  inversion Hk; subst res. rewrite app_nil_r.
  unfold matches_at.
  set (f := fun j => lookup j ((0%nat, consumed s0 s') :: c1)).
  change (lookup 0 ((0%nat, consumed s0 s') :: c1)
          :: map f (seq 1 (num_groups re)))
    with (map f (seq 0 (S (num_groups re)))).
  rewrite (nth_indep _ "" (f 0%nat)) by (rewrite length_map, length_seq; lia).
  rewrite (map_nth f), seq_nth by lia. subst f. cbn [plus lookup].
  destruct (Nat.eqb_spec i 0); [lia|].
  pose proof (lookup_in i c1 (A i Hi)) as Hin.
  rewrite Forall_forall in G. apply (G _ Hin).
Qed.

Lemma consumed_app (p s' : string) : consumed (p ++ s') s' = p.
Proof.
  unfold consumed.
  assert (Hl : forall q, String.length (q ++ s') = (String.length q + String.length s')%nat).
  { induction q as [|x q IH]; cbn; [|rewrite IH]; reflexivity. }
  rewrite Hl. replace (String.length p + String.length s' - String.length s')%nat
    with (String.length p) by lia.
  induction p as [|x p IH]; cbn.
  - destruct s'; reflexivity.
  - now rewrite IH.
Qed.

Lemma spans_plus_text (len : nat) (ci : bool) (k : cls) (s s' : string) :
  spans len ci (Plus k) s s' ->
  consumed s s' <> "" /\ all_in k (consumed s s') = true.
Proof.
  cbn [spans]. intros (x & p & -> & Hx & Hp). rewrite consumed_app.
  split; [discriminate|]. cbn [all_in]. now rewrite Hx, Hp.
Qed.

Lemma spans_decimal_text (len : nat) (s s' : string) :
  spans len false decimal s s' -> is_decimal (consumed s s').
Proof.
  unfold decimal. cbn [spans].
  intros [(m & (m0 & (x & p & -> & Hx & Hp) & Hl) & (y & q & -> & Hy & Hq))
         |(x & p & -> & Hx & Hp)].
  - apply lit_exact in Hl. subst m0. right.
    exists (String x p), (String y q).
    rewrite <- (consumed_app (String x p ++ "." ++ String y q) s') at 1.
    split; [now rewrite !append_assoc|].
    split; (split; [discriminate|]); cbn [all_in];
      [now rewrite Hx, Hp | now rewrite Hy, Hq].
  - left. rewrite consumed_app. split; [discriminate|]. cbn [all_in].
    now rewrite Hx, Hp.
Qed.

Ltac group_cases G :=
  repeat (destruct G as [G|G]);
  try contradiction;
  try (destruct G as [Hij _]; discriminate Hij).

(** X20: the four texts the timing pattern hands to [strconv] are
    numerals: the two durations are digits with an optional point and
    digits, the two counts are digits.  [ParseFloat] and [Atoi] cannot
    fail on them with a syntax error; the errors the code discards can
    only be range errors. *)
Theorem timing_submatches_are_numerals (line : string) (ms : list string) :
  FindStringSubmatch queryTimePattern line = Some ms ->
  is_decimal (matches_at ms 1) /\ is_decimal (matches_at ms 2) /\
  is_digits (matches_at ms 3) /\ is_digits (matches_at ms 4).
Proof.
  intros H.
  assert (G : forall i, (1 <= i <= 4)%nat ->
              group_text (String.length line) false (expr queryTimePattern) i
                         (matches_at ms i)).
  { intros i Hi. apply (submatch_group queryTimePattern line ms i H); [|exact Hi].
    cbn. lia. }
  pose proof (G 1%nat ltac:(lia)) as G1. pose proof (G 2%nat ltac:(lia)) as G2.
  pose proof (G 3%nat ltac:(lia)) as G3. pose proof (G 4%nat ltac:(lia)) as G4.
  clear G. cbn [expr queryTimePattern group_text] in G1, G2, G3, G4.
  split; [|split; [|split]].
  - group_cases G1. destruct G1 as (_ & s & s' & Hs & ->).
    apply (spans_decimal_text _ _ _ Hs).
  - group_cases G2. destruct G2 as (_ & s & s' & Hs & ->).
    apply (spans_decimal_text _ _ _ Hs).
  - group_cases G3. destruct G3 as (_ & s & s' & Hs & ->).
    apply (spans_plus_text _ _ _ _ _ Hs).
  - group_cases G4. destruct G4 as (_ & s & s' & Hs & ->).
    apply (spans_plus_text _ _ _ _ _ Hs).
Qed.

Lemma timing_submatches_are_numerals_witness :
  is_decimal "1.5" /\ is_decimal "0.1" /\ is_digits "3" /\ is_digits "500".
Proof.
  apply (timing_submatches_are_numerals
           "# Query_time: 1.5  Lock_time: 0.1  Rows_sent: 3  Rows_examined: 500"
           [ "# Query_time: 1.5  Lock_time: 0.1  Rows_sent: 3  Rows_examined: 500";
             "1.5"; "0.1"; "3"; "500" ]).
  vm_compute. reflexivity.
Defined.

Lemma schema_submatch_word (line : string) (ms : list string) :
  FindStringSubmatch databasePattern line = Some ms -> is_word (matches_at ms 1).
Proof.
  intros H.
  assert (G : group_text (String.length line) false (expr databasePattern) 1
                         (matches_at ms 1)).
  { apply (submatch_group databasePattern line ms 1 H); cbn; lia. }
  cbn [expr databasePattern group_text] in G. group_cases G.
  destruct G as (_ & s & s' & Hs & ->). apply (spans_plus_text _ _ _ _ _ Hs).
Qed.

Lemma identity_submatch_words (line : string) (ms : list string) :
  FindStringSubmatch userHostPattern line = Some ms ->
  is_word (matches_at ms 1) /\ is_word (matches_at ms 2).
Proof.
  intros H.
  assert (G : forall i, (1 <= i <= 2)%nat ->
              group_text (String.length line) false (expr userHostPattern) i
                         (matches_at ms i)).
  { intros i Hi. apply (submatch_group userHostPattern line ms i H); [|exact Hi].
    cbn. lia. }
  pose proof (G 1%nat ltac:(lia)) as G1. pose proof (G 2%nat ltac:(lia)) as G2.
  clear G. cbn [expr userHostPattern group_text] in G1, G2.
  split.
  - group_cases G1. destruct G1 as (_ & s & s' & Hs & ->).
    apply (spans_plus_text _ _ _ _ _ Hs).
  - group_cases G2. destruct G2 as (_ & s & s' & Hs & ->).
    apply (spans_plus_text _ _ _ _ _ Hs).
Qed.

Lemma scanLine_words (e : ParsedEntry) (line : string) :
  (all_in NotSpace (database e) = true /\ all_in NotSpace (user e) = true /\
   all_in NotSpace (host e) = true) ->
  all_in NotSpace (database (scanLine e line)) = true /\
  all_in NotSpace (user (scanLine e line)) = true /\
  all_in NotSpace (host (scanLine e line)) = true.
Proof.
  intros (Hd & Hu & Hh).
  unfold scanLine, scanSQL, scanDatabase, scanUserHost, scanTiming.
  destruct (FindStringSubmatch queryTimePattern line);
    destruct (FindStringSubmatch userHostPattern line) as [mu|] eqn:Eu;
    destruct (FindStringSubmatch databasePattern line) as [md|] eqn:Ed;
    destruct (FindStringSubmatch sqlQueryEndPattern line);
    cbn [database user host];
    try (destruct (identity_submatch_words line mu Eu) as [[_ H1] [_ H2]]);
    try (destruct (schema_submatch_word line md Ed) as [_ H3]);
    auto.
Qed.

(** X21: the database, user and host of a parsed entry never contain any
    of the five characters of [\s]: space, tab, line feed, form feed,
    carriage return.  (Other bytes, a vertical tab among them, can occur:
    [vertical_tab_is_kept].) *)
Theorem text_fields_have_no_space (lines : list string) :
  all_in NotSpace (database (parseEntry lines)) = true /\
  all_in NotSpace (user (parseEntry lines)) = true /\
  all_in NotSpace (host (parseEntry lines)) = true.
Proof.
  unfold parseEntry.
  assert (H0 : all_in NotSpace (database zeroEntry) = true /\
               all_in NotSpace (user zeroEntry) = true /\
               all_in NotSpace (host zeroEntry) = true) by (repeat split).
  revert H0. generalize zeroEntry as e.
  induction lines as [|l lines IH]; intros e He; [exact He|].
  cbn [fold_left]. apply IH, scanLine_words, He.
Qed.

(** A vertical tab is no [\s] character: it stays in the name. *)
Lemma vertical_tab_is_kept :
  database (parseEntry [vt_schema]) = "a" ++ String (ascii_of_nat 11) "b".
Proof. vm_compute. reflexivity. Qed.

Lemma scanLine_presence (e : ParsedEntry) (line : string) :
  (matches databasePattern line = true -> database (scanLine e line) <> "") /\
  (matches databasePattern line = false -> database (scanLine e line) = database e) /\
  (matches userHostPattern line = true ->
   user (scanLine e line) <> "" /\ host (scanLine e line) <> "") /\
  (matches userHostPattern line = false ->
   user (scanLine e line) = user e /\ host (scanLine e line) = host e).
Proof.
  unfold matches, scanLine, scanSQL, scanDatabase, scanUserHost, scanTiming.
  destruct (FindStringSubmatch queryTimePattern line);
    destruct (FindStringSubmatch userHostPattern line) as [mu|] eqn:Eu;
    destruct (FindStringSubmatch databasePattern line) as [md|] eqn:Ed;
    destruct (FindStringSubmatch sqlQueryEndPattern line);
    cbn [database user host];
    try (destruct (identity_submatch_words line mu Eu) as [[H1 _] [H2 _]]);
    try (destruct (schema_submatch_word line md Ed) as [H3 _]);
    repeat split; intros; auto; discriminate.
Qed.

Lemma fields_presence_from (lines : list string) : forall e,
  (database (fold_left scanLine lines e) <> "" <->
   (database e <> "" \/ existsb (matches databasePattern) lines = true)) /\
  (user (fold_left scanLine lines e) <> "" <->
   (user e <> "" \/ existsb (matches userHostPattern) lines = true)) /\
  (host (fold_left scanLine lines e) <> "" <->
   (host e <> "" \/ existsb (matches userHostPattern) lines = true)).
Proof.
  induction lines as [|l lines IH]; intros e; cbn [fold_left existsb].
  - repeat split; intros; auto; intuition discriminate.
  - destruct (IH (scanLine e l)) as (Id & Iu & Ih).
    destruct (scanLine_presence e l) as (Pd1 & Pd0 & Pu1 & Pu0).
    rewrite Id, Iu, Ih. clear Id Iu Ih.
    destruct (matches databasePattern l) eqn:Md;
      destruct (matches userHostPattern l) eqn:Mu; cbn [orb];
      try (specialize (Pd1 eq_refl)); try (rewrite (Pd0 eq_refl));
      try (destruct (Pu1 eq_refl) as [Pu Ph]);
      try (destruct (Pu0 eq_refl) as [-> ->]);
      intuition.
Qed.

(** X22: the database of a parsed entry is empty exactly when no line of
    the entry matches the schema pattern, and its user and its host are
    empty exactly when no line matches the identity pattern: a matching
    line always gives a non-empty value. *)
Theorem fields_empty_iff_unmatched (lines : list string) :
  (database (parseEntry lines) = "" <->
   existsb (matches databasePattern) lines = false) /\
  (user (parseEntry lines) = "" <->
   existsb (matches userHostPattern) lines = false) /\
  (host (parseEntry lines) = "" <->
   existsb (matches userHostPattern) lines = false).
Proof.
  destruct (fields_presence_from lines zeroEntry) as (Hd & Hu & Hh).
  fold (parseEntry lines) in Hd, Hu, Hh. cbn [zeroEntry database user host] in *.
  repeat split; intros H.
  - destruct (existsb (matches databasePattern) lines); [|reflexivity].
    exfalso. apply Hd; auto.
  - destruct (string_dec (database (parseEntry lines)) ""); [assumption|].
    apply Hd in n. destruct n; congruence.
  - destruct (existsb (matches userHostPattern) lines); [|reflexivity].
    exfalso. apply Hu; auto.
  - destruct (string_dec (user (parseEntry lines)) ""); [assumption|].
    apply Hu in n. destruct n; congruence.
  - destruct (existsb (matches userHostPattern) lines); [|reflexivity].
    exfalso. apply Hh; auto.
  - destruct (string_dec (host (parseEntry lines)) ""); [assumption|].
    apply Hh in n. destruct n; congruence.
Qed.

(** * The order of the lines *)

Lemma tailStep_segments (s : list string) (text : string) :
  text <> "" ->
  suffix (fst (tailStep s text)) (s ++ [text]) /\
  Forall (fun c => infix c (s ++ [text])) (snd (tailStep s text)).
Proof.
  intros Hne. unfold tailStep.
  destruct (String.eqb_spec text ""); [contradiction|].
  assert (Hs : infix s (s ++ [text])) by (exists [], [text]; reflexivity).
  assert (Ht : infix [text] (s ++ [text]))
    by (exists s, []; now rewrite app_nil_r).
  assert (Hall : infix (s ++ [text]) (s ++ [text]))
    by (exists [], []; now rewrite app_nil_r).
  assert (Hold : Forall (fun c => infix c (s ++ [text]))
                        (if nonempty s then [s] else []))
    by (destruct s; repeat constructor; exact Hs).
  destruct (MatchString queryStartPattern text),
           (MatchString sqlQueryEndPattern text); cbn [fst snd]; split.
  - exists (s ++ [text])%list. now rewrite app_nil_r.
  - apply Forall_app. split; [exact Hold|]. cbn. repeat constructor. exact Ht.
  - exists s. reflexivity.
  - apply Forall_app. split; [exact Hold|]. cbn. repeat constructor. exact Ht.
  - exists (s ++ [text])%list. now rewrite app_nil_r.
  - cbn. repeat constructor. exact Hall.
  - exists []. reflexivity.
  - destruct s; cbn; repeat constructor; exact Hall.
Qed.

Lemma infix_extend {A : Type} (c l pre post : list A) :
  infix c l -> infix c (pre ++ l ++ post).
Proof.
  intros (a & b & ->). exists (pre ++ a)%list, (b ++ post)%list.
  now rewrite <- !app_assoc.
Qed.

Lemma tailLoop_segments (lines : list string) : forall pre s,
  suffix (fst (tailLoop s lines)) (pre ++ s ++ filter nonblank lines) /\
  Forall (fun c => infix c (pre ++ s ++ filter nonblank lines))
         (snd (tailLoop s lines)).
Proof.
  induction lines as [|text rest IH]; intros pre s.
  - cbn. rewrite app_nil_r. split; [now exists pre | constructor].
  - rewrite tailLoop_cons. cbn [fst snd].
    destruct (String.eqb_spec text "") as [->|Hne].
    + change (filter nonblank ("" :: rest)) with (filter nonblank rest).
      rewrite tailStep_blank. cbn [fst snd app]. apply IH.
    + assert (Hnb : filter nonblank (text :: rest)
                    = ([text] ++ filter nonblank rest)%list).
      { cbn [filter]. unfold nonblank at 1.
        destruct (String.eqb_spec text ""); [contradiction | reflexivity]. }
      rewrite Hnb.
      destruct (tailStep_segments s text Hne) as ((a & Ha) & Hc).
      destruct (IH (pre ++ a)%list (fst (tailStep s text))) as (I1 & I2).
      assert (E : (pre ++ s ++ [text] ++ filter nonblank rest)%list =
                  ((pre ++ a) ++ fst (tailStep s text) ++ filter nonblank rest)%list).
      { rewrite <- (app_assoc pre a), (app_assoc a), <- Ha, <- app_assoc.
        reflexivity. }
      split; [rewrite E; exact I1|]. apply Forall_app. split.
      * eapply Forall_impl; [|exact Hc]. cbn beta. intros c Hin.
        rewrite (app_assoc s). apply infix_extend, Hin.
      * eapply Forall_impl; [|exact I2]. cbn beta. intros c Hin.
        rewrite E. exact Hin.
Qed.

(** X23: the loop neither reorders nor invents lines: every entry it hands
    to [processSlowQuery] is a run of consecutive non-blank lines of the
    log, in the order of the log, and the lines left pending are its most
    recent non-blank lines. *)
Theorem calls_are_runs_of_the_log (lines : list string) :
  Forall (fun c => infix c (filter nonblank lines)) (tailCalls lines) /\
  suffix (fst (tailLoop [] lines)) (filter nonblank lines).
Proof.
  destruct (tailLoop_segments lines [] []) as [H1 H2]. cbn [app] in *.
  split; assumption.
Qed.

(** * The threshold *)

Lemma SFleb_trans (a b c : float64) :
  SFleb a b = true -> SFleb b c = true -> SFleb a c = true.
Proof.
  unfold SFleb.
  destruct a as [sa|sa| |sa ma ea], b as [sb|sb| |sb mb eb], c as [sc|sc| |sc mc ec];
    cbn; try discriminate; try reflexivity;
    try (destruct sa; cbn; try discriminate; try reflexivity);
    try (destruct sb; cbn; try discriminate; try reflexivity);
    try (destruct sc; cbn; try discriminate; try reflexivity);
    try (intros; reflexivity); try (intros; discriminate).
  all: rewrite !Pos.compare_cont_spec; cbn [Pos.switch_Eq];
    destruct (Z.compare_spec ea eb), (Z.compare_spec eb ec), (Z.compare_spec ea ec);
    destruct (Pos.compare_spec ma mb), (Pos.compare_spec mb mc),
             (Pos.compare_spec ma mc);
    cbn; intros; try reflexivity; try discriminate; lia.
Qed.

(** X24: lowering the threshold never loses a notification: an entry
    notified at one threshold is notified at every lower one, so the loop
    posts at least as much. *)
Theorem lower_threshold_posts_more
  (cfg : config) (lower : float64) (lines : list string) :
  SFleb lower (slowQueryThreshold cfg) = true ->
  (forall c, processSlowQuery cfg c <> [] ->
             processSlowQuery (with_threshold cfg lower) c <> []) /\
  (List.length (tailSlowLog cfg lines)
   <= List.length (tailSlowLog (with_threshold cfg lower) lines))%nat.
Proof.
  intros Hle.
  assert (Hc : forall c,
             (List.length (processSlowQuery cfg c)
              <= List.length (processSlowQuery (with_threshold cfg lower) c))%nat).
  { intros c. unfold processSlowQuery, evaluate, float_ge.
    cbn [with_threshold slowQueryThreshold].
    destruct (SFleb (slowQueryThreshold cfg) (queryTime (parseEntry c))) eqn:E.
    - rewrite (SFleb_trans _ _ _ Hle E). cbn. lia.
    - cbn. lia. }
  split.
  - intros c Hne. specialize (Hc c).
    destruct (processSlowQuery cfg c); [contradiction|].
    destruct (processSlowQuery (with_threshold cfg lower) c); [cbn in Hc; lia|].
    discriminate.
  - unfold tailSlowLog. induction (tailCalls lines) as [|c cs IH]; cbn; [lia|].
    rewrite !length_app. specialize (Hc c). lia.
Qed.

Lemma lower_threshold_posts_more_witness :
  (List.length (tailSlowLog (config_with f64_2_0) scenario)
   <= List.length (tailSlowLog (with_threshold (config_with f64_2_0) f64_0_5)
                               scenario))%nat.
Proof.
  apply (lower_threshold_posts_more (config_with f64_2_0) f64_0_5 scenario).
  vm_compute. reflexivity.
Defined.
